(** * Auto Temp Cleaner: the sweep, the interval scheduler and the settings merge

    A shallow embedding of [src/main.ts].  The plugin is a class with two
    mutable fields ([settings], [intervalId]) that talks to its host
    (Obsidian and the browser window) through a handful of calls.  The
    embedding threads one [World] value through a small state monad:
    the plugin's fields, the host's vault, the clock, the window's table
    of active interval timers, and two logs (notices shown, files handed
    to [trashFile]) that make the effects of a run observable.

    Modelling choices, all of them about the host and none about the
    plugin's own control flow:
    - JavaScript numbers are integers ([Z]): minutes, epoch milliseconds
      and their products stay far below 2^53, where doubles are exact.
    - [normalizePath], [getAbstractFileByPath] and [trashFile] belong to
      Obsidian; they are fields of the [Host] class and every theorem
      holds for every instance.
    - [await] is sequencing.  The loop of the sweep runs over the live
      array [folder.children]: when the promise of [trashFile(file)]
      resolves, the host may already have taken [file] out of that
      array ([detachesOnTrash]); the entries behind it have then moved
      one place forward and the iterator passes over the next one.  A
      rejected [trashFile] promise is outside the model (the source has
      no handler for it). *)

From Stdlib Require Import ZArith String List Bool Lia DecimalString.
From stdpp Require Import base gmap strings list fin_maps.
Import ListNotations.

Local Open Scope string_scope.
Local Open Scope list_scope.
Local Open Scope Z_scope.

(** ** Data model *)

(** [interface AutoTempCleanerSettings]; the field is spelled
    [ttlMinites] in the source. *)
Record AutoTempCleanerSettings := mkSettings {
  targetFolder : string;
  ttlMinites : Z;
  checkInterval : Z;
  confirmed : bool;
}.

Definition DEFAULT_SETTINGS : AutoTempCleanerSettings := {|
  targetFolder := "tmp";
  ttlMinites := 1440;
  checkInterval := 0;
  confirmed := false;
|}.

(** Obsidian's [FileStats], [TFile] and [TFolder]; only the members the
    plugin reads. *)
Record FileStats := mkStats { ctime : Z }.

Record TFile := mkFile {
  path : string;
  extension : string;
  stat : FileStats;
}.

#[warnings="-register-all"] Inductive TAbstractFile :=
| AFile (file : TFile)
| AFolder (folderPath : string) (children : list TAbstractFile).

(** The host calls of the sweep.  [detachesOnTrash file v] tells whether,
    when the promise of [trashFile(file)] on vault [v] resolves, the host
    has taken [file] out of the [children] array of its folder (a vault
    that keeps its tree up to date as it trashes), or does so later. *)
Class Host := {
  Vault : Type;
  normalizePath : string -> string;
  getAbstractFileByPath : Vault -> string -> option TAbstractFile;
  trashFile : TFile -> Vault -> Vault;
  detachesOnTrash : TFile -> Vault -> bool;
}.

Definition newline : string := String (Ascii.ascii_of_nat 10) EmptyString.

(** [String(n)] and template interpolation of an integer. *)
Definition Number_toString (n : Z) : string :=
  NilZero.string_of_int (Z.to_int n).

(** [Array.prototype.join]. *)
Definition join (sep : string) (xs : list string) : string :=
  String.concat sep xs.

(** [function toMilliSec(minitues)]. *)
Definition toMilliSec (minitues : Z) : Z := minitues * 60000.

Section Plugin.
Context `{Host}.

(** The plugin instance together with the part of the host it acts on. *)
Record World := mkWorld {
  settings : AutoTempCleanerSettings;
  intervalId : option nat;
  vault : Vault;
  now : Z;
  notices : list string;
  trashed : list TFile;
  activeTimers : list (nat * Z);
  nextTimerId : nat;
}.

Definition M (A : Type) : Type := World -> A * World.

Definition ret {A} (a : A) : M A := fun w => (a, w).

Definition bind {A B} (m : M A) (k : A -> M B) : M B :=
  fun w => let (a, w') := m w in k a w'.

Definition exec {A} (m : M A) (w : World) : World := snd (m w).

End Plugin.

Notation "'let!' x ':=' m 'in' k" := (bind m (fun x => k))
  (at level 10, x name, m at level 100, k at level 200).
Notation "m '>>' k" := (bind m (fun _ => k))
  (at level 90, right associativity).

Section Operations.
Context `{Host}.

Definition getSettings : M AutoTempCleanerSettings :=
  fun w => (settings w, w).

Definition getIntervalId : M (option nat) :=
  fun w => (intervalId w, w).

Definition setIntervalId (id : option nat) : M unit :=
  fun w => (tt, mkWorld (settings w) id (vault w) (now w) (notices w)
                        (trashed w) (activeTimers w) (nextTimerId w)).

(** [new Notice(msg)]. *)
Definition Notice (msg : string) : M unit :=
  fun w => (tt, mkWorld (settings w) (intervalId w) (vault w) (now w)
                        (notices w ++ [msg])
                        (trashed w) (activeTimers w) (nextTimerId w)).

(** [Date.now()]. *)
Definition Date_now : M Z := fun w => (now w, w).

(** [this.app.vault.getAbstractFileByPath(p)]. *)
Definition vault_getAbstractFileByPath (p : string) : M (option TAbstractFile) :=
  fun w => (getAbstractFileByPath (vault w) p, w).

(** [await this.app.fileManager.trashFile(file)]; the result tells
    whether [file] has left [folder.children] when the call returns. *)
Definition fileManager_trashFile (file : TFile) : M bool :=
  fun w => (detachesOnTrash file (vault w),
            mkWorld (settings w) (intervalId w)
                    (trashFile file (vault w)) (now w) (notices w)
                    (trashed w ++ [file])
                    (activeTimers w) (nextTimerId w)).

(** [window.setInterval(() => this.runCleanUp(), ms)]: the callback is
    always the sweep, so the table keeps the handle and the period. *)
Definition window_setInterval (ms : Z) : M nat :=
  fun w => (nextTimerId w,
            mkWorld (settings w) (intervalId w) (vault w) (now w) (notices w)
                    (trashed w)
                    (activeTimers w ++ [(nextTimerId w, ms)])
                    (S (nextTimerId w))).

(** [clearInterval(id)]. *)
Definition clearInterval (id : nat) : M unit :=
  fun w => (tt, mkWorld (settings w) (intervalId w) (vault w) (now w) (notices w)
                        (trashed w)
                        (filter (fun t => negb (Nat.eqb (fst t) id)) (activeTimers w))
                        (nextTimerId w)).

(** [for (const x of xs) body] over a live array, with the loop's local
    array threaded through.  The iterator holds an index; [xs] is what
    lies from that index on.  [body] reports whether the element it was
    given has left the array: then what followed has moved one place
    forward, and the iterator, stepping to the next index, passes over
    the first of them. *)
Fixpoint for_of {A S : Type} (xs : list A) (body : S -> A -> M (S * bool))
    (s : S) : M S :=
  match xs with
  | [] => ret s
  | x :: rest =>
      let! r := body s x in
      if r.2 then
        match rest with
        | [] => ret r.1
        | _ :: rest' => for_of rest' body r.1
        end
      else for_of rest body r.1
  end.

Definition UNCONFIRMED_WARNING : string :=
  "This plugin automatically deletes files in the specified folder."
  +:+ newline +:+ "Please check the settings.".

(** The body of the loop of [runCleanUp], lines 75-81. *)
Definition cleanUpChild (now ttlMillis : Z) (delFiles : list string)
    (file : TAbstractFile) : M (list string * bool) :=
  match file with
  | AFile f =>
      if String.eqb (extension f) "md" then
        let ctime := ctime (stat f) in
        if now - ctime >? ttlMillis then
          let! detached := fileManager_trashFile f in
          ret (delFiles ++ [path f], detached)
        else ret (delFiles, false)
      else ret (delFiles, false)
  | AFolder _ _ => ret (delFiles, false)
  end.

(** [async runCleanUp()]. *)
Definition runCleanUp : M unit :=
  let! s := getSettings in
  if checkInterval s =? 0 then ret tt
  else if negb (confirmed s) then Notice UNCONFIRMED_WARNING
  else
    let folderPath := normalizePath (targetFolder s) in
    let! folder := vault_getAbstractFileByPath folderPath in
    match folder with
    | Some (AFolder _ children) =>
        let! now := Date_now in
        let ttlMillis := toMilliSec (ttlMinites s) in
        let! delFiles := for_of children (cleanUpChild now ttlMillis) [] in
        if (0 <? length delFiles)%nat then
          Notice ("Deleted files: " +:+ newline +:+ join newline delFiles)
        else ret tt
    | _ => ret tt
    end.

(** [startInterval()].  The call [this.runCleanUp()] is not awaited in
    the source; the sweep and the timer table act on disjoint parts of
    the world, so running the sweep to completion first gives the same
    final world. *)
Definition startInterval : M unit :=
  let! s := getSettings in
  (if checkInterval s =? 0 then
     Notice "Auto Temp Cleaner has been stopped."
   else
     Notice ("Run Auto Temp Cleaner every "
             +:+ Number_toString (checkInterval s) +:+ " minutes.")) >>
  runCleanUp >>
  let intervalMs := toMilliSec (checkInterval s) in
  let! id := window_setInterval intervalMs in
  setIntervalId (Some id).

(** [onunload()]. *)
Definition onunload : M unit :=
  let! id := getIntervalId in
  match id with
  | Some i => clearInterval i >> setIntervalId None
  | None => ret tt
  end.

End Operations.

(** One firing of the interval timer [id]: the window calls the callback
    registered with it, which is the sweep. *)
Definition intervalFires `{Host} (id : nat) : M unit :=
  fun w =>
    if existsb (fun t => Nat.eqb (fst t) id) (activeTimers w)
    then runCleanUp w
    else (tt, w).

(** What a run added to the two logs. *)
Definition deletedBy `{Host} (m : M unit) (w : World) : list TFile :=
  drop (length (trashed w)) (trashed (exec m w)).

Definition noticesBy `{Host} (m : M unit) (w : World) : list string :=
  drop (length (notices w)) (notices (exec m w)).

(** The folder the sweep works on: line 67-69. *)
Definition resolvedFolder `{Host} (w : World) : option TAbstractFile :=
  getAbstractFileByPath (vault w) (normalizePath (targetFolder (settings w))).

(** The world after a sweep that trashed [deleted] and showed [shown]. *)
Definition afterSweep `{Host} (w : World) (deleted : list TFile)
    (shown : list string) : World :=
  mkWorld (settings w) (intervalId w)
          (foldl (fun v f => trashFile f v) (vault w) deleted)
          (now w) (notices w ++ shown) (trashed w ++ deleted)
          (activeTimers w) (nextTimerId w).

(** The children the specification asks the sweep to delete, in the
    words of the specification: files, extension [md], age above the
    time to live. *)
Definition expiredNote (now ttlMinutes : Z) (c : TAbstractFile) : option TFile :=
  match c with
  | AFile f =>
      if decide (extension f = "md" ∧ now - ctime (stat f) > ttlMinutes * 60000)
      then Some f else None
  | AFolder _ _ => None
  end.

Definition expiredNotes (now ttlMinutes : Z) (children : list TAbstractFile) : list TFile :=
  omap (expiredNote now ttlMinutes) children.

(** The expired notes the loop reaches on vault [v]: after an expired
    note that the host detaches, the child behind it is passed over. *)
Fixpoint sweptNotes `{Host} (now ttlMinutes : Z) (v : Vault)
    (children : list TAbstractFile) : list TFile :=
  match children with
  | [] => []
  | c :: rest =>
      match expiredNote now ttlMinutes c with
      | Some f =>
          f :: (if detachesOnTrash f v then
                  match rest with
                  | [] => []
                  | _ :: rest' => sweptNotes now ttlMinutes (trashFile f v) rest'
                  end
                else sweptNotes now ttlMinutes (trashFile f v) rest)
      | None => sweptNotes now ttlMinutes v rest
      end
  end.

(** A host that leaves [folder.children] as it is while a sweep runs. *)
Definition keepsChildrenWhileSweeping `{Host} : Prop :=
  ∀ f v, detachesOnTrash f v = false.

(** The summary notice of line 83-85. *)
Definition deletionSummary (deleted : list TFile) : list string :=
  match deleted with
  | [] => []
  | _ => ["Deleted files: " +:+ newline +:+ join newline (map path deleted)]
  end.

(** Every file below a node of the tree. *)
Fixpoint filesBelow (n : TAbstractFile) : list TFile :=
  match n with
  | AFile f => [f]
  | AFolder _ cs => flat_map filesBelow cs
  end.

(** A file that lies in a subfolder of the folder and is not one of its
    direct children. *)
Definition inSubfolderOnly (f : TFile) (children : list TAbstractFile) : Prop :=
  (∃ q cs, In (AFolder q cs) children ∧ In f (flat_map filesBelow cs))
  ∧ ¬ In (AFile f) children.

(** ** Settings as stored objects

    [loadData()] yields the parsed [data.json] or [null];
    [Object.assign] copies own properties key by key, so objects are
    finite maps from property names to values. *)
Inductive JsValue :=
| JString (s : string)
| JNumber (n : Z)
| JBoolean (b : bool).

Abbreviation JsObject := (gmap string JsValue).

(** The object a settings record is at run time. *)
Definition toObject (s : AutoTempCleanerSettings) : JsObject :=
  <["targetFolder" := JString (targetFolder s)]>
  (<["ttlMinites" := JNumber (ttlMinites s)]>
  (<["checkInterval" := JNumber (checkInterval s)]>
  (<["confirmed" := JBoolean (confirmed s)]> ∅))).

(** Reading an object at the declared type of [this.settings]. *)
Definition asSettings (o : JsObject) : option AutoTempCleanerSettings :=
  match o !! "targetFolder", o !! "ttlMinites",
        o !! "checkInterval", o !! "confirmed" with
  | Some (JString t), Some (JNumber m), Some (JNumber c), Some (JBoolean b) =>
      Some (mkSettings t m c b)
  | _, _, _, _ => None
  end.

(** [Object.assign(target, ...sources)]: each source in turn, each own
    property written into the target; [null] sources are skipped. *)
Definition assignFrom (target : JsObject) (source : option JsObject) : JsObject :=
  match source with
  | Some o => map_fold (fun k v acc => <[k := v]> acc) target o
  | None => target
  end.

Definition Object_assign (target : JsObject) (sources : list (option JsObject)) : JsObject :=
  foldl assignFrom target sources.

(** [loadSettings()], with the result of [await this.loadData()] as
    argument. *)
Definition loadSettings (data : option JsObject) : JsObject :=
  Object_assign ∅ [Some (toObject DEFAULT_SETTINGS); data].

(** ** A vault in memory

    An instance of [Host] to run the plugin on: the vault is the tree
    below its root, lookup is by path, trashing removes the file with
    that path. *)
Module MemoryVault.

Definition abstractPath (n : TAbstractFile) : string :=
  match n with
  | AFile f => path f
  | AFolder p _ => p
  end.

Fixpoint findByPath (p : string) (n : TAbstractFile) : option TAbstractFile :=
  if String.eqb (abstractPath n) p then Some n
  else match n with
       | AFile _ => None
       | AFolder _ cs =>
           (fix among (l : list TAbstractFile) : option TAbstractFile :=
              match l with
              | [] => None
              | c :: l' =>
                  match findByPath p c with
                  | Some r => Some r
                  | None => among l'
                  end
              end) cs
       end.

Fixpoint removeByPath (p : string) (n : TAbstractFile) : TAbstractFile :=
  match n with
  | AFile f => AFile f
  | AFolder q cs =>
      AFolder q
        ((fix among (l : list TAbstractFile) : list TAbstractFile :=
            match l with
            | [] => []
            | c :: l' =>
                match c with
                | AFile f =>
                    if String.eqb (path f) p then among l' else c :: among l'
                | AFolder _ _ => removeByPath p c :: among l'
                end
            end) cs)
  end.

#[export] Instance host : Host := {|
  Vault := TAbstractFile;
  normalizePath := fun p => p;
  getAbstractFileByPath := fun v p => findByPath p v;
  trashFile := fun f v => removeByPath (path f) v;
  detachesOnTrash := fun _ _ => true;
|}.

(** The same vault with a tree that is brought up to date only after the
    sweep. *)
Definition lazyHost : Host := {|
  Vault := TAbstractFile;
  normalizePath := fun p => p;
  getAbstractFileByPath := fun v p => findByPath p v;
  trashFile := fun f v => removeByPath (path f) v;
  detachesOnTrash := fun _ _ => false;
|}.

Definition note (p : string) (created : Z) : TAbstractFile :=
  AFile (mkFile p "md" (mkStats created)).

Definition start (s : AutoTempCleanerSettings) (root : TAbstractFile) (clock : Z) : World :=
  mkWorld s None root clock [] [] [] 1.

(** The scenario of the specification at clock 10000000, one hour of
    time to live: [a.md] is two hours old, [b.md] half an hour, [c.txt]
    two hours; added here are [e.md], exactly one hour old, and an old
    note in a subfolder. *)
Definition tmpChildren : list TAbstractFile :=
  [ note "tmp/a.md" 2800000;
    note "tmp/b.md" 8200000;
    AFile (mkFile "tmp/c.txt" "txt" (mkStats 2800000));
    note "tmp/e.md" 6400000;
    AFolder "tmp/sub" [ note "tmp/sub/d.md" 0 ] ].

Definition root : TAbstractFile :=
  AFolder "/" [ AFolder "tmp" tmpChildren; note "readme.md" 0 ].

Definition clock : Z := 10000000.

Definition running : World := start (mkSettings "tmp" 60 10 true) root clock.

Definition disabled : World := start (mkSettings "tmp" 60 0 true) root clock.

Definition unconfirmed : World := start (mkSettings "tmp" 60 10 false) root clock.

Definition fresh : World := start DEFAULT_SETTINGS root clock.

Definition negativeInterval : World :=
  start (mkSettings "tmp" 60 (-1) false) root clock.

Definition negativeTtl : World := start (mkSettings "tmp" (-5) 10 true) root clock.

Definition missingFolder : World := start (mkSettings "nowhere" 60 10 true) root clock.

Definition fileAsFolder : World := start (mkSettings "readme.md" 60 10 true) root clock.

(** The same worlds on the vault whose tree is brought up to date after
    the sweep. *)
Definition lazyRunning : @World lazyHost :=
  @mkWorld lazyHost (mkSettings "tmp" 60 10 true) None root clock [] [] [] 1.

Definition lazyNegativeTtl : @World lazyHost :=
  @mkWorld lazyHost (mkSettings "tmp" (-5) 10 true) None root clock [] [] [] 1.

End MemoryVault.

(** ** The settings tab and the life cycle of the plugin

    The handlers of [AutoTempCleanerSettingTab.display], [onload] and
    [saveSettings].  They act on the plugin and on the [data.json] the
    host keeps for it.  The settings object is read at its declared
    type: properties beyond the four declared ones, which the source
    would carry along, are not tracked.  Every assignment to
    [this.plugin.settings] is to a copy ([Object.assign({}, ...)],
    [{...DEFAULT_SETTINGS}]), so [DEFAULT_SETTINGS] itself is never
    written and settings are plain values.  A handler runs to its end
    before the next event is handled. *)

(** The built-ins the tab applies to the text of an input:
    [parseInt(value)], with [None] for [NaN], and [value.trim()].  The
    theorems hold for every instance. *)
Class Builtins := {
  parseInt : string -> option Z;
  String_trim : string -> string;
}.

Section Session.
Context `{Host}.

Record Session := mkSession {
  plugin : World;
  dataJson : option JsObject;
}.

(** [this.settings = s]. *)
Definition setSettings (s : AutoTempCleanerSettings) : M unit :=
  fun w => (tt, mkWorld s (intervalId w) (vault w) (now w) (notices w)
                        (trashed w) (activeTimers w) (nextTimerId w)).

(** [this.plugin.settings.<field> = v]. *)
Definition assignTargetFolder (v : string) : M unit :=
  let! s := getSettings in
  setSettings (mkSettings v (ttlMinites s) (checkInterval s) (confirmed s)).

Definition assignTtlMinites (v : Z) : M unit :=
  let! s := getSettings in
  setSettings (mkSettings (targetFolder s) v (checkInterval s) (confirmed s)).

Definition assignCheckInterval (v : Z) : M unit :=
  let! s := getSettings in
  setSettings (mkSettings (targetFolder s) (ttlMinites s) v (confirmed s)).

Definition assignConfirmed (v : bool) : M unit :=
  let! s := getSettings in
  setSettings (mkSettings (targetFolder s) (ttlMinites s) (checkInterval s) v).

(** A step on the plugin alone. *)
Definition onPlugin (m : M unit) (d : Session) : Session :=
  mkSession (exec m (plugin d)) (dataJson d).

(** One statement after the other. *)
Definition andThen (f g : Session -> Session) : Session -> Session :=
  fun d => g (f d).

(** [async saveSettings()]: [saveData(this.settings)]. *)
Definition saveSettings (d : Session) : Session :=
  mkSession (plugin d) (Some (toObject (settings (plugin d)))).

(** [display()] rebuilds the controls of the tab from the settings; it
    writes nothing of the session. *)
Definition display (d : Session) : Session := d.

(** [async onload()]; [addSettingTab] registers the tab and changes
    nothing of the session.  [None]: the stored object does not have the
    declared type of [this.settings]. *)
Definition onload (d : Session) : option Session :=
  match asSettings (loadSettings (dataJson d)) with
  | Some s => Some (onPlugin startInterval (onPlugin (setSettings s) d))
  | None => None
  end.

End Session.

Infix ">->" := andThen (at level 56, left associativity).

Section Tab.
Context `{Host} `{Builtins}.

(** The button, lines 113-123. *)
Definition onResetClick : Session -> Session :=
  onPlugin (setSettings DEFAULT_SETTINGS)
  >-> saveSettings
  >-> display
  >-> onPlugin (Notice "Settings have been reset.").

(** The folder field, lines 134-137. *)
Definition onTargetFolderChange (value : string) : Session -> Session :=
  onPlugin (assignTargetFolder (String_trim value))
  >-> saveSettings.

(** The expiration field, lines 149-155. *)
Definition onTtlChange (value : string) : Session -> Session :=
  let numVal := parseInt value in
  match numVal with
  | Some n =>
      if (n >=? 1) && (n <=? 10080) then
        onPlugin (assignTtlMinites n)
        >-> saveSettings
      else fun d => d
  | None => fun d => d
  end.

(** The interval field, lines 169-177. *)
Definition onCheckIntervalChange (value : string) : Session -> Session :=
  let numVal := parseInt value in
  match numVal with
  | Some n =>
      if (n >=? 0) && (n <=? 1440) then
        onPlugin (assignCheckInterval n)
        >-> saveSettings
        >-> onPlugin onunload
        >-> onPlugin startInterval
      else fun d => d
  | None => fun d => d
  end.

(** The toggle, lines 186-194. *)
Definition onConfirmChange (value : bool) : Session -> Session :=
  onPlugin (assignConfirmed value)
  >-> saveSettings
  >-> onPlugin (Notice (if value
                        then "Automatic deletion is now enabled."
                        else "Automatic deletion is now disabled.")).

(** What can happen to a loaded plugin. *)
Inductive Event :=
| ResetClicked
| TargetFolderChanged (value : string)
| TtlChanged (value : string)
| CheckIntervalChanged (value : string)
| ConfirmChanged (value : bool)
| IntervalElapsed (id : nat)
| Unloaded.

Definition handle (e : Event) : Session -> Session :=
  match e with
  | ResetClicked => onResetClick
  | TargetFolderChanged value => onTargetFolderChange value
  | TtlChanged value => onTtlChange value
  | CheckIntervalChanged value => onCheckIntervalChange value
  | ConfirmChanged value => onConfirmChange value
  | IntervalElapsed id => onPlugin (intervalFires id)
  | Unloaded => onPlugin onunload
  end.

Definition run (events : list Event) (d : Session) : Session :=
  foldl (fun d e => handle e d) d events.

End Tab.

(** ** Conditions on a session *)

(** What a sweep trashes and shows, as a function of the settings, the
    vault and the clock. *)
Definition sweepOutcome `{Host} (w : World) : list TFile * list string :=
  if checkInterval (settings w) =? 0 then ([], [])
  else if negb (confirmed (settings w)) then ([], [UNCONFIRMED_WARNING])
  else match resolvedFolder w with
       | Some (AFolder _ children) =>
           let deleted :=
             sweptNotes (now w) (ttlMinites (settings w)) (vault w) children in
           (deleted, deletionSummary deleted)
       | _ => ([], [])
       end.

(** The notice [startInterval] opens with, lines 44-50. *)
Definition intervalNotice (minutes : Z) : string :=
  if minutes =? 0 then "Auto Temp Cleaner has been stopped."
  else "Run Auto Temp Cleaner every "
       +:+ Number_toString minutes +:+ " minutes.".

(** The window holds no timer but the one whose handle the plugin
    keeps. *)
Definition tracksTimer `{Host} (w : World) : Prop :=
  match intervalId w with
  | Some id => ∃ ms, activeTimers w = [(id, ms)]
  | None => activeTimers w = []
  end.

(** The bounds the tab puts on the two numbers. *)
Definition withinBounds (s : AutoTempCleanerSettings) : Prop :=
  1 ≤ ttlMinites s ≤ 10080 ∧ 0 ≤ checkInterval s ≤ 1440.

(** Every delay handed to [setInterval] is a day at most, so it fits
    the signed 32-bit integer the window turns it into. *)
Definition periodsFit `{Host} (w : World) : Prop :=
  ∀ id ms, In (id, ms) (activeTimers w) → 0 ≤ ms ≤ 86400000.

(** A restart would load the settings the plugin has now. *)
Definition persisted `{Host} (d : Session) : Prop :=
  asSettings (loadSettings (dataJson d)) = Some (settings (plugin d)).

(** ** Plain input

    An instance of [Builtins] to run the tab on: [parseInt] on a sign
    and decimal digits, followed by anything; [trim] on spaces. *)
Module PlainInput.

Definition minusSign : Ascii.ascii := Ascii.ascii_of_nat 45.
Definition plusSign : Ascii.ascii := Ascii.ascii_of_nat 43.
Definition space : Ascii.ascii := Ascii.ascii_of_nat 32.

Definition digitOf (c : Ascii.ascii) : option Z :=
  let n := Z.of_nat (Ascii.nat_of_ascii c) in
  if (48 <=? n) && (n <=? 57) then Some (n - 48) else None.

Fixpoint leadingDigits (s : string) (acc : option Z) : option Z :=
  match s with
  | EmptyString => acc
  | String c rest =>
      match digitOf c with
      | Some k => leadingDigits rest (Some (10 * default 0 acc + k))
      | None => acc
      end
  end.

Definition parseDecimal (s : string) : option Z :=
  match s with
  | String c rest =>
      if Ascii.eqb c minusSign then Z.opp <$> leadingDigits rest None
      else if Ascii.eqb c plusSign then leadingDigits rest None
      else leadingDigits s None
  | EmptyString => None
  end.

Fixpoint dropSpaces (s : string) : string :=
  match s with
  | String c rest => if Ascii.eqb c space then dropSpaces rest else s
  | EmptyString => EmptyString
  end.

Definition trimSpaces (s : string) : string :=
  String.rev (dropSpaces (String.rev (dropSpaces s))).

#[export] Instance builtins : Builtins := {|
  parseInt := parseDecimal;
  String_trim := trimSpaces;
|}.

(** A first start on the vault in memory, and a start on stored
    settings. *)
Definition firstRun : Session := mkSession MemoryVault.fresh None.

Definition stored : Session :=
  mkSession MemoryVault.fresh
            (Some (toObject (mkSettings "tmp" 60 10 true))).

Definition loaded : Session := default stored (onload stored).

Definition unconfirmedSession : Session :=
  mkSession MemoryVault.unconfirmed None.

Definition stoppedSession : Session := mkSession MemoryVault.disabled None.

(** Edits, ticks, a reset and an unload. *)
Definition busyDay : list Event :=
  [ TtlChanged "0"; TtlChanged "90"; TargetFolderChanged " tmp ";
    CheckIntervalChanged "5"; IntervalElapsed 2; ResetClicked;
    IntervalElapsed 2; Unloaded ].

(** The same without the interval field. *)
Definition quietDay : list Event :=
  [ TtlChanged "1"; ConfirmChanged true; IntervalElapsed 1; ResetClicked;
    ConfirmChanged true; IntervalElapsed 1 ].

(** A day on which the toggle is never switched on. *)
Definition cautiousDay : list Event :=
  [ CheckIntervalChanged "5"; TtlChanged "1"; IntervalElapsed 1;
    ConfirmChanged false; IntervalElapsed 1 ].

End PlainInput.

(** * Properties *)

Section SweepFacts.
Context `{Host}.

Lemma afterSweep_nothing (w : World) : afterSweep w [] [] = w.
Proof.
  destruct w; unfold afterSweep; simpl.
  by rewrite !app_nil_r.
Qed.

Lemma expiredNote_Some nw ttl c f :
  expiredNote nw ttl c = Some f ↔
  c = AFile f ∧ extension f = "md" ∧ nw - ctime (stat f) > ttl * 60000.
Proof.
  destruct c as [g | q cs]; simpl.
  - case_decide; split.
    + intros [= ->]. tauto.
    + intros [[= ->] _]. reflexivity.
    + discriminate.
    + intros [[= ->] ?]. tauto.
  - split; [discriminate | intros [[=] _]].
Qed.

Lemma In_expiredNotes nw ttl children f :
  In f (expiredNotes nw ttl children) ↔
  In (AFile f) children ∧ extension f = "md" ∧ nw - ctime (stat f) > ttl * 60000.
Proof.
  unfold expiredNotes. rewrite <- !list_elem_of_In, list_elem_of_omap. split.
  - intros (c & Hc & Hf). apply expiredNote_Some in Hf as (-> & ? & ?). tauto.
  - intros (Hc & ? & ?). exists (AFile f). split; [done |].
    apply expiredNote_Some. tauto.
Qed.

Lemma expiredNotes_cons nw ttl c rest :
  expiredNotes nw ttl (c :: rest) =
  match expiredNote nw ttl c with
  | Some f => f :: expiredNotes nw ttl rest
  | None => expiredNotes nw ttl rest
  end.
Proof. reflexivity. Qed.

(** One iteration of the loop body against the specification's test. *)
Lemma cleanUpChild_step nw ttl acc c (w : World) :
  cleanUpChild nw (toMilliSec ttl) acc c w =
  match expiredNote nw ttl c with
  | Some f =>
      ((acc ++ [path f], detachesOnTrash f (vault w)), afterSweep w [f] [])
  | None => ((acc, false), w)
  end.
Proof.
  destruct c as [f | q cs]; [| reflexivity].
  unfold cleanUpChild, expiredNote, toMilliSec.
  destruct (String.eqb_spec (extension f) "md") as [Hext | Hext].
  - destruct (Z.gtb_spec (nw - ctime (stat f)) (ttl * 60000)) as [Hage | Hage].
    + rewrite decide_True by (split; [done | lia]).
      unfold bind, fileManager_trashFile, ret, afterSweep. simpl.
      by rewrite app_nil_r.
    + rewrite decide_False by lia. reflexivity.
  - rewrite decide_False by tauto. reflexivity.
Qed.

Lemma afterSweep_afterSweep (w : World) d1 s1 d2 s2 :
  afterSweep (afterSweep w d1 s1) d2 s2 = afterSweep w (d1 ++ d2) (s1 ++ s2).
Proof.
  unfold afterSweep. simpl. by rewrite foldl_app, !app_assoc.
Qed.

(** Induction for a loop that may pass over the next element. *)
Lemma skipping_ind {A : Type} (P : list A → Prop) :
  P [] →
  (∀ x rest, P rest → P (tl rest) → P (x :: rest)) →
  ∀ l, P l.
Proof.
  intros Hnil Hcons l.
  assert (Hboth : P l ∧ P (tl l)); [| tauto].
  induction l as [| x rest [IH IHtl]]; simpl; [tauto |].
  split; [by apply Hcons | done].
Qed.

Lemma for_of_cons {A S : Type} (x : A) (rest : list A)
    (body : S → A → M (S * bool)) (s : S) (w : World) :
  for_of (x :: rest) body s w =
  let (r, w') := body s x w in
  for_of (if r.2 then tl rest else rest) body r.1 w'.
Proof.
  cbn [for_of]. unfold bind. destruct (body s x w) as [[s' gone] w']. simpl.
  destruct gone; [by destruct rest | done].
Qed.

Lemma sweptNotes_cons nw ttl (v : Vault) c rest :
  sweptNotes nw ttl v (c :: rest) =
  match expiredNote nw ttl c with
  | Some f =>
      f :: sweptNotes nw ttl (trashFile f v)
             (if detachesOnTrash f v then tl rest else rest)
  | None => sweptNotes nw ttl v rest
  end.
Proof.
  cbn [sweptNotes]. destruct (expiredNote nw ttl c) as [f |]; [| done].
  destruct (detachesOnTrash f v); [by destruct rest | done].
Qed.

Lemma expiredNotes_tl nw ttl rest :
  expiredNotes nw ttl (tl rest) `sublist_of` expiredNotes nw ttl rest.
Proof.
  destruct rest as [| c rest]; [done |]. rewrite expiredNotes_cons. simpl.
  destruct (expiredNote nw ttl c); [by constructor | done].
Qed.

(** What the loop reaches is part of what is expired, in the same order. *)
Lemma sweptNotes_sublist nw ttl children : ∀ v : Vault,
  sweptNotes nw ttl v children `sublist_of` expiredNotes nw ttl children.
Proof.
  induction children as [| c rest IH IHtl] using skipping_ind; intros v.
  - done.
  - rewrite sweptNotes_cons, expiredNotes_cons.
    destruct (expiredNote nw ttl c) as [f |]; [| apply IH].
    constructor. destruct (detachesOnTrash f v); [| apply IH].
    etrans; [apply IHtl | apply expiredNotes_tl].
Qed.

Lemma In_sweptNotes nw ttl (v : Vault) children f :
  In f (sweptNotes nw ttl v children) → In f (expiredNotes nw ttl children).
Proof.
  rewrite <- !list_elem_of_In. intros Hin.
  pose proof (sweptNotes_sublist nw ttl children v) as Hsub.
  apply sublist_submseteq in Hsub. by eapply elem_of_submseteq.
Qed.

(** On a host that leaves the array alone the loop reaches every child. *)
Lemma sweptNotes_keeps nw ttl children :
  keepsChildrenWhileSweeping →
  ∀ v : Vault, sweptNotes nw ttl v children = expiredNotes nw ttl children.
Proof.
  intros Hkeep. induction children as [| c rest IH]; intros v; [done |].
  rewrite sweptNotes_cons, expiredNotes_cons.
  destruct (expiredNote nw ttl c) as [f |]; [| apply IH].
  by rewrite Hkeep, IH.
Qed.

(** The first expired note is always reached. *)
Lemma sweptNotes_head nw ttl (v : Vault) children :
  head (sweptNotes nw ttl v children) = head (expiredNotes nw ttl children).
Proof.
  revert v. induction children as [| c rest IH]; intros v; [done |].
  rewrite sweptNotes_cons, expiredNotes_cons.
  destruct (expiredNote nw ttl c) as [f |]; [done | apply IH].
Qed.

(** The loop trashes the expired notes it reaches, each once and in the
    folder's order, and collects their paths. *)
Lemma for_of_cleanUpChild children : ∀ nw ttl acc (w : World),
  for_of children (cleanUpChild nw (toMilliSec ttl)) acc w =
  (acc ++ map path (sweptNotes nw ttl (vault w) children),
   afterSweep w (sweptNotes nw ttl (vault w) children) []).
Proof.
  induction children as [| c rest IH IHtl] using skipping_ind;
    intros nw ttl acc w.
  - simpl. unfold ret. by rewrite afterSweep_nothing, app_nil_r.
  - rewrite for_of_cons, cleanUpChild_step, sweptNotes_cons.
    destruct (expiredNote nw ttl c) as [f |]; [| apply IH].
    cbn [fst snd].
    destruct (detachesOnTrash f (vault w)).
    + rewrite IHtl, afterSweep_afterSweep. simpl. by rewrite <- app_assoc.
    + rewrite IH, afterSweep_afterSweep. simpl. by rewrite <- app_assoc.
Qed.

(** The sweep, case by case. *)
Lemma runCleanUp_disabled (w : World) :
  checkInterval (settings w) = 0 → runCleanUp w = (tt, w).
Proof.
  intros Hc. unfold runCleanUp, bind, getSettings. by rewrite Hc.
Qed.

Lemma runCleanUp_unconfirmed (w : World) :
  checkInterval (settings w) ≠ 0 → confirmed (settings w) = false →
  runCleanUp w = (tt, afterSweep w [] [UNCONFIRMED_WARNING]).
Proof.
  intros Hc Hf. unfold runCleanUp, bind, getSettings.
  apply Z.eqb_neq in Hc. rewrite Hc, Hf. simpl.
  unfold Notice, afterSweep. simpl. by rewrite app_nil_r.
Qed.

Lemma runCleanUp_no_folder (w : World) :
  checkInterval (settings w) ≠ 0 → confirmed (settings w) = true →
  (∀ p cs, resolvedFolder w ≠ Some (AFolder p cs)) →
  runCleanUp w = (tt, w).
Proof.
  intros Hc Hf Hno. unfold runCleanUp, bind, getSettings.
  apply Z.eqb_neq in Hc. rewrite Hc, Hf. simpl.
  unfold vault_getAbstractFileByPath. unfold resolvedFolder in Hno.
  destruct (getAbstractFileByPath _ _) as [[f | p cs] |]; try reflexivity.
  by destruct (Hno p cs).
Qed.

Lemma runCleanUp_folder (w : World) p children :
  checkInterval (settings w) ≠ 0 → confirmed (settings w) = true →
  resolvedFolder w = Some (AFolder p children) →
  let deleted :=
    sweptNotes (now w) (ttlMinites (settings w)) (vault w) children in
  runCleanUp w = (tt, afterSweep w deleted (deletionSummary deleted)).
Proof.
  intros Hc Hf Hdir deleted. unfold runCleanUp, bind at 1, getSettings.
  apply Z.eqb_neq in Hc. rewrite Hc, Hf. simpl.
  unfold bind at 1, vault_getAbstractFileByPath.
  unfold resolvedFolder in Hdir. rewrite Hdir.
  unfold bind at 1, Date_now. unfold bind.
  rewrite for_of_cleanUpChild. fold deleted. simpl.
  rewrite length_map.
  destruct deleted as [| f rest]; simpl.
  - unfold ret. by rewrite !afterSweep_nothing.
  - unfold Notice, afterSweep. simpl. by rewrite app_nil_r.
Qed.

Lemma deletedBy_afterSweep (m : M unit) (w : World) deleted shown :
  m w = (tt, afterSweep w deleted shown) → deletedBy m w = deleted.
Proof.
  intros Hm. unfold deletedBy, exec. rewrite Hm. simpl.
  by rewrite drop_app_length.
Qed.

Lemma noticesBy_afterSweep (m : M unit) (w : World) deleted shown :
  m w = (tt, afterSweep w deleted shown) → noticesBy m w = shown.
Proof.
  intros Hm. unfold noticesBy, exec. rewrite Hm. simpl.
  by rewrite drop_app_length.
Qed.

Lemma deletedBy_unchanged (m : M unit) (w : World) :
  m w = (tt, w) → deletedBy m w = [].
Proof.
  intros Hm. apply (deletedBy_afterSweep m w [] []).
  by rewrite afterSweep_nothing.
Qed.

Lemma noticesBy_unchanged (m : M unit) (w : World) :
  m w = (tt, w) → noticesBy m w = [].
Proof.
  intros Hm. apply (noticesBy_afterSweep m w [] []).
  by rewrite afterSweep_nothing.
Qed.

(** Whatever the settings and the vault, a sweep is some [afterSweep]
    whose deleted files are expired notes of the resolved folder. *)
Lemma runCleanUp_shape (w : World) :
  ∃ deleted shown,
    runCleanUp w = (tt, afterSweep w deleted shown) ∧
    ∀ f, In f deleted →
      ∃ p children, resolvedFolder w = Some (AFolder p children) ∧
        In f (expiredNotes (now w) (ttlMinites (settings w)) children).
Proof.
  destruct (decide (checkInterval (settings w) = 0)) as [Hc | Hc].
  { exists [], []. rewrite afterSweep_nothing.
    split; [by apply runCleanUp_disabled | intros f []]. }
  destruct (confirmed (settings w)) eqn:Hf.
  2:{ exists [], [UNCONFIRMED_WARNING].
      split; [by apply runCleanUp_unconfirmed | intros f []]. }
  destruct (resolvedFolder w) as [[g | p cs] |] eqn:Hdir.
  - exists [], []. rewrite afterSweep_nothing.
    split; [| intros f []]. apply runCleanUp_no_folder; try done.
    intros; by rewrite Hdir.
  - eexists _, _. split; [by apply (runCleanUp_folder w p cs) |].
    intros f Hin. exists p, cs. split; [done |]. by eapply In_sweptNotes.
  - exists [], []. rewrite afterSweep_nothing.
    split; [| intros f []]. apply runCleanUp_no_folder; try done.
    intros; by rewrite Hdir.
Qed.

End SweepFacts.

Section SweepClaims.
Context `{Host}.

(** C1.  With [checkInterval = 0] the sweep returns at once: the world is
    left exactly as it was, whatever the other settings and the vault
    hold; it trashes no file and shows no notice. *)
Theorem sweep_disabled_is_noop (w : World) :
  checkInterval (settings w) = 0 →
  runCleanUp w = (tt, w)
  ∧ deletedBy runCleanUp w = []
  ∧ noticesBy runCleanUp w = [].
Proof.
  intros Hc. pose proof (runCleanUp_disabled w Hc) as Hrun.
  auto using deletedBy_unchanged, noticesBy_unchanged.
Qed.

(** C2.  With [confirmed = false] and [checkInterval > 0] the sweep shows
    the warning and does nothing else: the vault and every other part of
    the world are unchanged, no file is handed to [trashFile]. *)
Theorem sweep_unconfirmed_warns_only (w : World) :
  confirmed (settings w) = false →
  checkInterval (settings w) > 0 →
  exec runCleanUp w =
    mkWorld (settings w) (intervalId w) (vault w) (now w)
            (notices w ++ [UNCONFIRMED_WARNING])
            (trashed w) (activeTimers w) (nextTimerId w)
  ∧ deletedBy runCleanUp w = []
  ∧ noticesBy runCleanUp w = [UNCONFIRMED_WARNING].
Proof.
  intros Hf Hc.
  assert (Hrun : runCleanUp w = (tt, afterSweep w [] [UNCONFIRMED_WARNING]))
    by (apply runCleanUp_unconfirmed; [lia | done]).
  split; [| split].
  - unfold exec. rewrite Hrun. unfold afterSweep. simpl. by rewrite app_nil_r.
  - by apply deletedBy_afterSweep in Hrun.
  - by apply noticesBy_afterSweep in Hrun.
Qed.

(** C4, what the source does.  The loop runs over the live array
    [folder.children].  When the first two children are expired notes
    and the host has taken the first out of the array by the time
    [trashFile] returns, the sweep trashes the first and passes over the
    second: an expired note that is a direct child stays, so "if and
    only if" holds in one direction only. *)
Theorem sweep_passes_over_child_behind_trashed_one (w : World) p a b rest :
  checkInterval (settings w) ≠ 0 →
  confirmed (settings w) = true →
  resolvedFolder w = Some (AFolder p (AFile a :: AFile b :: rest)) →
  extension a = "md" →
  now w - ctime (stat a) > ttlMinites (settings w) * 60000 →
  extension b = "md" →
  now w - ctime (stat b) > ttlMinites (settings w) * 60000 →
  detachesOnTrash a (vault w) = true →
  a ≠ b →
  ¬ In (AFile b) rest →
  In a (deletedBy runCleanUp w) ∧ ¬ In b (deletedBy runCleanUp w).
Proof.
  intros Hc Hf Hdir Hexta Hagea Hextb Hageb Hgone Hab Hrest.
  pose proof (runCleanUp_folder w p _ Hc Hf Hdir) as Hrun.
  apply deletedBy_afterSweep in Hrun. rewrite Hrun.
  rewrite sweptNotes_cons.
  assert (Ha : expiredNote (now w) (ttlMinites (settings w)) (AFile a) = Some a)
    by (apply expiredNote_Some; tauto).
  rewrite Ha, Hgone. simpl tl.
  split; [by left |].
  intros [Heq | Hin]; [done |].
  apply In_sweptNotes, In_expiredNotes in Hin. tauto.
Qed.

(** C5.  A file whose extension is not [md], and a file that lies in a
    subfolder of the target folder without being a direct child, is never
    handed to [trashFile]; the sweep changes the vault by trashing the
    files it deleted and by nothing else. *)
Theorem sweep_spares_other_files (w : World) (f : TFile) :
  (extension f ≠ "md" ∨
   ∃ p children, resolvedFolder w = Some (AFolder p children)
                 ∧ inSubfolderOnly f children) →
  ¬ In f (deletedBy runCleanUp w)
  ∧ vault (exec runCleanUp w) =
      foldl (fun v g => trashFile g v) (vault w) (deletedBy runCleanUp w).
Proof.
  intros Hother.
  destruct (runCleanUp_shape w) as (deleted & shown & Hrun & Hdel).
  rewrite (deletedBy_afterSweep _ _ _ _ Hrun).
  split; [| by unfold exec; rewrite Hrun].
  intros Hin. destruct (Hdel f Hin) as (p & children & Hdir & Hexp).
  apply In_expiredNotes in Hexp as (Hchild & Hext & _).
  destruct Hother as [Hne | (p' & children' & Hdir' & _ & Hnot)]; [done |].
  rewrite Hdir in Hdir'. injection Hdir' as _ <-. done.
Qed.

(** C6.  When the normalized target path names nothing, or names a file,
    the sweep trashes nothing and leaves the vault alone; past the
    confirmation gate it changes nothing at all. *)
Theorem sweep_without_folder_is_silent (w : World) :
  (resolvedFolder w = None ∨ ∃ f, resolvedFolder w = Some (AFile f)) →
  deletedBy runCleanUp w = []
  ∧ vault (exec runCleanUp w) = vault w
  ∧ trashed (exec runCleanUp w) = trashed w
  ∧ (confirmed (settings w) = true → runCleanUp w = (tt, w)).
Proof.
  intros Hno.
  assert (Hnf : ∀ p cs, resolvedFolder w ≠ Some (AFolder p cs)).
  { intros p cs Heq. destruct Hno as [Hn | [f Hn]]; congruence. }
  destruct (decide (checkInterval (settings w) = 0)) as [Hc | Hc].
  { pose proof (runCleanUp_disabled w Hc) as Hrun.
    rewrite (deletedBy_unchanged _ _ Hrun). unfold exec. by rewrite Hrun. }
  destruct (confirmed (settings w)) eqn:Hf.
  - pose proof (runCleanUp_no_folder w Hc Hf Hnf) as Hrun.
    rewrite (deletedBy_unchanged _ _ Hrun). unfold exec. by rewrite Hrun.
  - pose proof (runCleanUp_unconfirmed w Hc Hf) as Hrun.
    rewrite (deletedBy_afterSweep _ _ _ _ Hrun). unfold exec. rewrite Hrun.
    repeat split; [by unfold afterSweep; simpl; rewrite app_nil_r | done].
Qed.

(** C7.  After the loop the sweep shows one notice, the paths of the
    deleted files joined by newlines under the heading of the source, when
    it deleted at least one file, and no notice when it deleted none. *)
Theorem sweep_summary_notice (w : World) p children :
  checkInterval (settings w) ≠ 0 →
  confirmed (settings w) = true →
  resolvedFolder w = Some (AFolder p children) →
  noticesBy runCleanUp w =
    match deletedBy runCleanUp w with
    | [] => []
    | f :: rest =>
        ["Deleted files: " +:+ newline
           +:+ join newline (map path (f :: rest))]
    end.
Proof.
  intros Hc Hf Hdir.
  pose proof (runCleanUp_folder w p children Hc Hf Hdir) as Hrun.
  rewrite (deletedBy_afterSweep _ _ _ _ Hrun), (noticesBy_afterSweep _ _ _ _ Hrun).
  unfold deletionSummary.
  by destruct (sweptNotes (now w) (ttlMinites (settings w)) (vault w) children).
Qed.

(** C9, as amended.  The interval is tested before the confirmation:
    with [checkInterval = 0] and [confirmed = false] the sweep shows no
    notice, and the warning can only be shown when [checkInterval] is
    not 0 (the source tests [=== 0], so a negative interval passes). *)
Theorem sweep_checks_interval_first (w : World) :
  (checkInterval (settings w) = 0 → confirmed (settings w) = false →
   noticesBy runCleanUp w = [])
  ∧ (In UNCONFIRMED_WARNING (noticesBy runCleanUp w) →
     checkInterval (settings w) ≠ 0).
Proof.
  split.
  - intros Hc _. by apply noticesBy_unchanged, runCleanUp_disabled.
  - intros Hin Hc.
    rewrite (noticesBy_unchanged _ _ (runCleanUp_disabled w Hc)) in Hin.
    destruct Hin.
Qed.


End SweepClaims.

Section SchedulerClaims.
Context `{Host}.

Lemma startInterval_zero (w : World) :
  checkInterval (settings w) = 0 →
  startInterval w =
    (tt, mkWorld (settings w) (Some (nextTimerId w)) (vault w) (now w)
                 (notices w ++ ["Auto Temp Cleaner has been stopped."])
                 (trashed w)
                 (activeTimers w ++ [(nextTimerId w, 0)])
                 (S (nextTimerId w))).
Proof.
  intros Hc. unfold startInterval, bind at 1, getSettings.
  rewrite Hc. simpl. unfold bind at 1, Notice. unfold bind at 1.
  rewrite runCleanUp_disabled by done.
  reflexivity.
Qed.

(** C3, what the source does.  With [checkInterval = 0], [startInterval]
    shows the notice that the cleaner has been stopped and runs one sweep,
    which changes nothing; but the call of [setInterval] is outside the
    test of the interval, so a timer of period 0 is registered and its
    handle stored.  The sweep it keeps firing changes nothing. *)
Theorem start_with_interval_zero_registers_timer (w : World) :
  checkInterval (settings w) = 0 →
  let w' := exec startInterval w in
  noticesBy startInterval w = ["Auto Temp Cleaner has been stopped."]
  ∧ deletedBy startInterval w = []
  ∧ vault w' = vault w
  ∧ activeTimers w' = activeTimers w ++ [(nextTimerId w, toMilliSec 0)]
  ∧ intervalId w' = Some (nextTimerId w)
  ∧ intervalFires (nextTimerId w) w' = (tt, w').
Proof.
  intros Hc w'. pose proof (startInterval_zero w Hc) as Hrun.
  unfold noticesBy, deletedBy. subst w'. unfold exec. rewrite Hrun. simpl.
  rewrite drop_app_length, drop_all.
  repeat split.
  unfold intervalFires. simpl.
  rewrite existsb_app. simpl. rewrite Nat.eqb_refl, orb_true_r.
  by apply runCleanUp_disabled.
Qed.

End SchedulerClaims.

Section SettingsClaims.

Lemma assignFrom_lookup (target : JsObject) (source : option JsObject) (k : string) :
  assignFrom target source !! k =
  match source with
  | Some o =>
      match o !! k with
      | Some v => Some v
      | None => target !! k
      end
  | None => target !! k
  end.
Proof.
  destruct source as [o |]; [| reflexivity]. simpl. revert k.
  apply (map_fold_weak_ind
           (fun (r : JsObject) (m : JsObject) =>
              ∀ k, r !! k = match m !! k with
                            | Some v => Some v
                            | None => target !! k
                            end)).
  - intros k. by rewrite lookup_empty.
  - intros i x m r Hi IH k. rewrite !lookup_insert. case_decide; [done | apply IH].
Qed.

(** C8.  [loadSettings] yields the stored data laid over the defaults:
    a key of the stored data keeps the stored value, any other key has
    the value of [DEFAULT_SETTINGS], whose four properties are
    [targetFolder = "tmp"], [ttlMinites = 1440], [checkInterval = 0]
    and [confirmed = false]; with nothing stored the result is the
    defaults. *)
Theorem loadSettings_merges_over_defaults :
  (∀ (data : JsObject) (k : string),
     loadSettings (Some data) !! k =
       match data !! k with
       | Some v => Some v
       | None => toObject DEFAULT_SETTINGS !! k
       end)
  ∧ loadSettings None = toObject DEFAULT_SETTINGS
  ∧ toObject DEFAULT_SETTINGS =
      list_to_map [("targetFolder", JString "tmp"); ("ttlMinites", JNumber 1440);
                   ("checkInterval", JNumber 0); ("confirmed", JBoolean false)]
  ∧ asSettings (loadSettings None) = Some DEFAULT_SETTINGS.
Proof.
  assert (Hdef : ∀ k, assignFrom ∅ (Some (toObject DEFAULT_SETTINGS)) !! k
                      = toObject DEFAULT_SETTINGS !! k).
  { intros k. rewrite assignFrom_lookup, lookup_empty.
    by destruct (toObject DEFAULT_SETTINGS !! k). }
  assert (Hnone : loadSettings None = toObject DEFAULT_SETTINGS).
  { apply map_eq. intros k. unfold loadSettings, Object_assign. cbn [foldl].
    change (assignFrom ?t None) with t. apply Hdef. }
  split; [| split; [| split]].
  - intros data k. unfold loadSettings, Object_assign. cbn [foldl].
    rewrite assignFrom_lookup, Hdef. reflexivity.
  - exact Hnone.
  - reflexivity.
  - rewrite Hnone. reflexivity.
Qed.

End SettingsClaims.

(** * The plugin on the vault in memory *)

Import MemoryVault.

(** The scenario of the specification: of [a.md], [b.md] and [c.txt]
    only [a.md] goes; the note that is exactly one hour old and the note
    in the subfolder stay. *)
Example scenario_deletes_only_a :
  deletedBy runCleanUp running = [mkFile "tmp/a.md" "md" (mkStats 2800000)]
  ∧ noticesBy runCleanUp running = ["Deleted files: " +:+ newline +:+ "tmp/a.md"]
  ∧ resolvedFolder (exec runCleanUp running)
    = Some (AFolder "tmp" (tl tmpChildren)).
Proof. repeat split. Qed.

Example scenario_second_sweep_deletes_nothing :
  deletedBy runCleanUp (exec runCleanUp running) = [].
Proof. reflexivity. Qed.

Example scenario_restart :
  activeTimers (exec (startInterval >> onunload >> startInterval) running)
  = [(2%nat, 600000)].
Proof. reflexivity. Qed.

Lemma sweep_disabled_is_noop_witness :
  checkInterval (settings disabled) = 0
  ∧ (runCleanUp disabled = (tt, disabled)
     ∧ deletedBy runCleanUp disabled = []
     ∧ noticesBy runCleanUp disabled = []).
Proof.
  split; [reflexivity |].
  apply (sweep_disabled_is_noop disabled). reflexivity.
Defined.

Lemma sweep_unconfirmed_warns_only_witness :
  (confirmed (settings unconfirmed) = false
   ∧ checkInterval (settings unconfirmed) > 0)
  ∧ deletedBy runCleanUp unconfirmed = []
  ∧ noticesBy runCleanUp unconfirmed = [UNCONFIRMED_WARNING]
  ∧ vault (exec runCleanUp unconfirmed) = root.
Proof.
  assert (Hf : confirmed (settings unconfirmed) = false) by reflexivity.
  assert (Hc : checkInterval (settings unconfirmed) > 0) by reflexivity.
  destruct (sweep_unconfirmed_warns_only unconfirmed Hf Hc) as (Hw & Hd & Hn).
  split; [split; assumption |].
  split; [exact Hd |]. split; [exact Hn |]. by rewrite Hw.
Defined.

(** With every note of [tmp] expired, the sweep on the vault in memory
    trashes [a.md], passes over [b.md], and after [c.txt] trashes
    [e.md]. *)
Example sweep_on_live_array_skips :
  deletedBy runCleanUp negativeTtl
  = [mkFile "tmp/a.md" "md" (mkStats 2800000);
     mkFile "tmp/e.md" "md" (mkStats 6400000)].
Proof. reflexivity. Qed.

Lemma sweep_passes_over_child_behind_trashed_one_witness :
  let a := mkFile "tmp/a.md" "md" (mkStats 2800000) in
  let b := mkFile "tmp/b.md" "md" (mkStats 8200000) in
  let rest := tl (tl tmpChildren) in
  (checkInterval (settings negativeTtl) ≠ 0
   ∧ confirmed (settings negativeTtl) = true
   ∧ resolvedFolder negativeTtl = Some (AFolder "tmp" (AFile a :: AFile b :: rest))
   ∧ (extension a = "md"
      ∧ now negativeTtl - ctime (stat a) > ttlMinites (settings negativeTtl) * 60000)
   ∧ (extension b = "md"
      ∧ now negativeTtl - ctime (stat b) > ttlMinites (settings negativeTtl) * 60000)
   ∧ detachesOnTrash a (vault negativeTtl) = true
   ∧ a ≠ b
   ∧ ¬ In (AFile b) rest)
  ∧ In a (deletedBy runCleanUp negativeTtl)
  ∧ ¬ In b (deletedBy runCleanUp negativeTtl).
Proof.
  intros a b rest.
  assert (Hc : checkInterval (settings negativeTtl) ≠ 0) by discriminate.
  assert (Hf : confirmed (settings negativeTtl) = true) by reflexivity.
  assert (Hdir : resolvedFolder negativeTtl
                 = Some (AFolder "tmp" (AFile a :: AFile b :: rest)))
    by reflexivity.
  assert (Hexta : extension a = "md") by reflexivity.
  assert (Hagea : now negativeTtl - ctime (stat a)
                  > ttlMinites (settings negativeTtl) * 60000) by reflexivity.
  assert (Hextb : extension b = "md") by reflexivity.
  assert (Hageb : now negativeTtl - ctime (stat b)
                  > ttlMinites (settings negativeTtl) * 60000) by reflexivity.
  assert (Hgone : detachesOnTrash a (vault negativeTtl) = true) by reflexivity.
  assert (Hab : a ≠ b) by discriminate.
  assert (Hrest : ¬ In (AFile b) rest).
  { simpl. intros Hin. decompose [or] Hin; discriminate || contradiction. }
  split; [tauto |].
  exact (sweep_passes_over_child_behind_trashed_one negativeTtl "tmp" a b rest
           Hc Hf Hdir Hexta Hagea Hextb Hageb Hgone Hab Hrest).
Defined.

Lemma sweep_spares_other_files_witness :
  let d := mkFile "tmp/sub/d.md" "md" (mkStats 0) in
  (resolvedFolder running = Some (AFolder "tmp" tmpChildren)
   ∧ inSubfolderOnly d tmpChildren)
  ∧ ¬ In d (deletedBy runCleanUp running)
  ∧ vault (exec runCleanUp running) =
      foldl (fun v g => trashFile g v) (vault running)
            (deletedBy runCleanUp running).
Proof.
  intros d.
  assert (Hdir : resolvedFolder running = Some (AFolder "tmp" tmpChildren))
    by reflexivity.
  assert (Hsub : inSubfolderOnly d tmpChildren).
  { split.
    - exists "tmp/sub", [note "tmp/sub/d.md" 0]. split.
      + do 4 right. left. reflexivity.
      + left. reflexivity.
    - simpl. intros Hin. decompose [or] Hin; discriminate || contradiction. }
  split; [tauto |].
  apply (sweep_spares_other_files running d).
  right. exists "tmp", tmpChildren. tauto.
Defined.

Lemma sweep_without_folder_is_silent_witness :
  resolvedFolder missingFolder = None
  ∧ deletedBy runCleanUp missingFolder = []
  ∧ vault (exec runCleanUp missingFolder) = vault missingFolder
  ∧ trashed (exec runCleanUp missingFolder) = trashed missingFolder
  ∧ (confirmed (settings missingFolder) = true →
     runCleanUp missingFolder = (tt, missingFolder)).
Proof.
  split; [reflexivity |].
  apply (sweep_without_folder_is_silent missingFolder).
  left. reflexivity.
Defined.

Lemma sweep_summary_notice_witness :
  (checkInterval (settings running) ≠ 0
   ∧ confirmed (settings running) = true
   ∧ resolvedFolder running = Some (AFolder "tmp" tmpChildren))
  ∧ noticesBy runCleanUp running =
      match deletedBy runCleanUp running with
      | [] => []
      | f :: rest =>
          ["Deleted files: " +:+ newline
             +:+ join newline (map path (f :: rest))]
      end.
Proof.
  assert (Hc : checkInterval (settings running) ≠ 0) by discriminate.
  assert (Hf : confirmed (settings running) = true) by reflexivity.
  assert (Hdir : resolvedFolder running = Some (AFolder "tmp" tmpChildren))
    by reflexivity.
  split; [tauto |].
  exact (sweep_summary_notice running "tmp" tmpChildren Hc Hf Hdir).
Defined.

(** C9 as the specification words it fails: with the interval -1 and no
    confirmation the warning is shown although the interval is not above
    0. *)
Lemma warning_shown_with_negative_interval :
  checkInterval (settings negativeInterval) = -1
  ∧ confirmed (settings negativeInterval) = false
  ∧ In UNCONFIRMED_WARNING (noticesBy runCleanUp negativeInterval)
  ∧ ¬ checkInterval (settings negativeInterval) > 0.
Proof.
  split; [reflexivity |]. split; [reflexivity |]. split.
  - left. reflexivity.
  - discriminate.
Qed.

Lemma sweep_checks_interval_first_witness :
  (checkInterval (settings fresh) = 0 ∧ confirmed (settings fresh) = false)
  ∧ noticesBy runCleanUp fresh = [].
Proof.
  split; [split; reflexivity |].
  apply (proj1 (sweep_checks_interval_first fresh)); reflexivity.
Defined.


Lemma start_with_interval_zero_registers_timer_witness :
  checkInterval (settings fresh) = 0
  ∧ noticesBy startInterval fresh = ["Auto Temp Cleaner has been stopped."]
  ∧ deletedBy startInterval fresh = []
  ∧ vault (exec startInterval fresh) = vault fresh
  ∧ activeTimers (exec startInterval fresh) = [(1%nat, 0)]
  ∧ intervalId (exec startInterval fresh) = Some 1%nat
  ∧ intervalFires 1 (exec startInterval fresh) = (tt, exec startInterval fresh).
Proof.
  split; [reflexivity |].
  apply (start_with_interval_zero_registers_timer fresh). reflexivity.
Defined.

(** * Further properties of the sweep *)

Section SweepOutcome.
Context `{Host}.

(** The sweep as a function of the settings, the vault and the clock. *)
Lemma runCleanUp_outcome (w : World) :
  runCleanUp w = (tt, afterSweep w (sweepOutcome w).1 (sweepOutcome w).2).
Proof.
  unfold sweepOutcome.
  destruct (Z.eqb_spec (checkInterval (settings w)) 0) as [Hc | Hc].
  { simpl. rewrite afterSweep_nothing. by apply runCleanUp_disabled. }
  destruct (confirmed (settings w)) eqn:Hf; simpl.
  2:{ by apply runCleanUp_unconfirmed. }
  destruct (resolvedFolder w) as [[g | p cs] |] eqn:Hdir; simpl.
  - rewrite afterSweep_nothing. apply runCleanUp_no_folder; try done.
    intros; by rewrite Hdir.
  - by apply (runCleanUp_folder w p cs).
  - rewrite afterSweep_nothing. apply runCleanUp_no_folder; try done.
    intros; by rewrite Hdir.
Qed.

Lemma sweepOutcome_ext (w w' : World) :
  settings w' = settings w → vault w' = vault w → now w' = now w →
  sweepOutcome w' = sweepOutcome w.
Proof.
  intros Hs Hv Hn. unfold sweepOutcome, resolvedFolder.
  by rewrite Hs, Hv, Hn.
Qed.

Lemma deletedBy_runCleanUp (w : World) :
  deletedBy runCleanUp w = (sweepOutcome w).1.
Proof. apply (deletedBy_afterSweep _ _ _ _ (runCleanUp_outcome w)). Qed.

Lemma noticesBy_runCleanUp (w : World) :
  noticesBy runCleanUp w = (sweepOutcome w).2.
Proof. apply (noticesBy_afterSweep _ _ _ _ (runCleanUp_outcome w)). Qed.

Lemma exec_runCleanUp (w : World) :
  exec runCleanUp w = afterSweep w (sweepOutcome w).1 (sweepOutcome w).2.
Proof. unfold exec. by rewrite runCleanUp_outcome. Qed.

(** Anything the sweep trashes is an expired note of the resolved folder,
    found with confirmation given and the interval not 0. *)
Lemma sweepOutcome_deleted (w : World) f :
  In f (sweepOutcome w).1 →
  checkInterval (settings w) ≠ 0 ∧ confirmed (settings w) = true ∧
  ∃ p children, resolvedFolder w = Some (AFolder p children) ∧
    In f (expiredNotes (now w) (ttlMinites (settings w)) children).
Proof.
  unfold sweepOutcome.
  destruct (Z.eqb_spec (checkInterval (settings w)) 0) as [Hc | Hc]; [intros [] |].
  destruct (confirmed (settings w)); simpl; [| intros []].
  destruct (resolvedFolder w) as [[g | p cs] |]; simpl; try (intros []).
  intros Hin. repeat split; try done. exists p, cs.
  split; [done |]. by eapply In_sweptNotes.
Qed.

Lemma expiredNotes_sublist nw ttl children :
  map AFile (expiredNotes nw ttl children) `sublist_of` children.
Proof.
  induction children as [| c rest IH]; [constructor |].
  rewrite expiredNotes_cons.
  destruct (expiredNote nw ttl c) as [f |] eqn:Hc.
  - apply expiredNote_Some in Hc as (-> & _). simpl. by constructor.
  - by constructor.
Qed.

(** X1.  A sweep leaves the plugin's own state alone: settings, timer
    handle, timer table and clock are as before; the notice log and the
    trash log only grow at their ends, and the vault is the old one with
    the deleted files trashed in order. *)
Theorem sweep_keeps_plugin_state (w : World) :
  let w' := exec runCleanUp w in
  settings w' = settings w
  ∧ intervalId w' = intervalId w
  ∧ activeTimers w' = activeTimers w
  ∧ nextTimerId w' = nextTimerId w
  ∧ now w' = now w
  ∧ notices w' = notices w ++ noticesBy runCleanUp w
  ∧ trashed w' = trashed w ++ deletedBy runCleanUp w
  ∧ vault w' = foldl (fun v f => trashFile f v) (vault w) (deletedBy runCleanUp w).
Proof.
  intros w'. subst w'.
  rewrite noticesBy_runCleanUp, deletedBy_runCleanUp, exec_runCleanUp.
  unfold afterSweep. simpl. tauto.
Qed.

(** X2.  The files a sweep trashes are direct children of the folder taken
    in the folder's order, none of them twice: as a list they are a
    sublist of the children, and without repetition when the children
    are. *)
Theorem sweep_trashes_in_order_once (w : World) p children :
  resolvedFolder w = Some (AFolder p children) →
  map AFile (deletedBy runCleanUp w) `sublist_of` children
  ∧ (NoDup children → NoDup (deletedBy runCleanUp w))
  ∧ (length (deletedBy runCleanUp w) ≤ length children)%nat.
Proof.
  intros Hdir.
  assert (Hsub : map AFile (deletedBy runCleanUp w) `sublist_of` children).
  { rewrite deletedBy_runCleanUp. unfold sweepOutcome. rewrite Hdir.
    destruct (checkInterval (settings w) =? 0); [apply sublist_nil_l |].
    destruct (confirmed (settings w)); simpl; [| apply sublist_nil_l].
    etrans; [| apply expiredNotes_sublist].
    apply fmap_sublist, sweptNotes_sublist. }
  split; [done |]. split.
  - intros Hnd. apply (NoDup_fmap_1 AFile). by eapply sublist_NoDup.
  - apply sublist_length in Hsub. by rewrite length_map in Hsub.
Qed.

(** X3.  On a host that leaves [folder.children] as it is while a sweep
    runs, a longer time to live never deletes more: whatever a sweep
    trashes after [ttlMinites] is raised, the sweep with the lower value
    trashes too. *)
Theorem sweep_monotone_in_ttl (w : World) (ttl' : Z) (f : TFile) :
  keepsChildrenWhileSweeping →
  ttlMinites (settings w) ≤ ttl' →
  In f (deletedBy runCleanUp (exec (assignTtlMinites ttl') w)) →
  In f (deletedBy runCleanUp w).
Proof.
  intros Hkeep Hle. rewrite !deletedBy_runCleanUp. intros Hin.
  apply sweepOutcome_deleted in Hin as (Hc & Hf & p & cs & Hdir & Hexp).
  unfold exec, assignTtlMinites, bind, getSettings, setSettings, resolvedFolder in *.
  simpl in *. unfold sweepOutcome, resolvedFolder.
  apply Z.eqb_neq in Hc. rewrite Hc, Hf, Hdir. simpl.
  rewrite sweptNotes_keeps by exact Hkeep.
  apply In_expiredNotes in Hexp as (Hchild & Hext & Hage).
  apply In_expiredNotes. repeat split; [done | done | lia].
Qed.

(** X4.  On a host that leaves [folder.children] as it is while a sweep
    runs, a second sweep at the same clock and settings over what the
    first one left deletes nothing: if every file child of the folder it
    finds was a child before and was not trashed, nothing is trashed. *)
Theorem second_sweep_deletes_nothing (w w2 : World) p children p2 children2 :
  keepsChildrenWhileSweeping →
  settings w2 = settings w →
  now w2 = now w →
  resolvedFolder w = Some (AFolder p children) →
  resolvedFolder w2 = Some (AFolder p2 children2) →
  (∀ f, In (AFile f) children2 →
        In (AFile f) children ∧ ¬ In f (deletedBy runCleanUp w)) →
  deletedBy runCleanUp w2 = [].
Proof.
  intros Hkeep Hs Hn Hdir Hdir2 Hleft.
  destruct (deletedBy runCleanUp w2) as [| f rest] eqn:Hdel; [done |].
  assert (Hin : In f (deletedBy runCleanUp w2)) by (rewrite Hdel; by left).
  rewrite deletedBy_runCleanUp in Hin.
  apply sweepOutcome_deleted in Hin as (Hc & Hf & q & cs & Hq & Hexp).
  rewrite Hdir2 in Hq. injection Hq as _ <-.
  apply In_expiredNotes in Hexp as (Hchild & Hext & Hage).
  destruct (Hleft f Hchild) as (Hbefore & Hkept).
  exfalso. apply Hkept. rewrite deletedBy_runCleanUp.
  unfold sweepOutcome. rewrite Hs, Hn in *.
  apply Z.eqb_neq in Hc. rewrite Hc, Hf, Hdir. simpl.
  rewrite sweptNotes_keeps by exact Hkeep.
  apply In_expiredNotes. tauto.
Qed.

(** X23.  Whatever the host does to the array, a sweep trashes a file only
    if the interval is not 0, the confirmation is given, and the file is
    a direct child of the resolved folder with extension [md] and an age
    [now - ctime] strictly above [ttlMinites * 60000]; a file whose age
    equals that bound is kept. *)
Theorem sweep_trashes_only_expired_notes (w : World) (f : TFile) :
  (In f (deletedBy runCleanUp w) →
   checkInterval (settings w) ≠ 0
   ∧ confirmed (settings w) = true
   ∧ ∃ p children, resolvedFolder w = Some (AFolder p children)
       ∧ In (AFile f) children
       ∧ extension f = "md"
       ∧ now w - ctime (stat f) > ttlMinites (settings w) * 60000)
  ∧ (now w - ctime (stat f) = ttlMinites (settings w) * 60000 →
     ¬ In f (deletedBy runCleanUp w)).
Proof.
  assert (Honly : In f (deletedBy runCleanUp w) →
    checkInterval (settings w) ≠ 0
    ∧ confirmed (settings w) = true
    ∧ ∃ p children, resolvedFolder w = Some (AFolder p children)
        ∧ In (AFile f) children
        ∧ extension f = "md"
        ∧ now w - ctime (stat f) > ttlMinites (settings w) * 60000).
  { rewrite deletedBy_runCleanUp. intros Hin.
    apply sweepOutcome_deleted in Hin as (Hc & Hf & p & cs & Hdir & Hexp).
    apply In_expiredNotes in Hexp. split; [done |]. split; [done |].
    exists p, cs. tauto. }
  split; [exact Honly |].
  intros Hage Hin. destruct (Honly Hin) as (_ & _ & p & cs & _ & _ & _ & Hgt).
  lia.
Qed.

(** X24.  A sweep that reaches the folder always trashes the first expired
    note of the array, whatever the host does to the array: it trashes
    nothing exactly when no direct child is an expired note, so sweeps
    repeated at one clock empty the folder of expired notes. *)
Theorem sweep_trashes_first_expired_note (w : World) p children :
  checkInterval (settings w) ≠ 0 →
  confirmed (settings w) = true →
  resolvedFolder w = Some (AFolder p children) →
  head (deletedBy runCleanUp w)
    = head (expiredNotes (now w) (ttlMinites (settings w)) children)
  ∧ (deletedBy runCleanUp w = [] ↔
     ∀ f, In (AFile f) children →
          ¬ (extension f = "md"
             ∧ now w - ctime (stat f) > ttlMinites (settings w) * 60000)).
Proof.
  intros Hc Hf Hdir.
  pose proof (runCleanUp_folder w p children Hc Hf Hdir) as Hrun.
  apply deletedBy_afterSweep in Hrun. rewrite Hrun.
  pose proof (sweptNotes_head (now w) (ttlMinites (settings w)) (vault w)
                children) as Hhead.
  split; [exact Hhead |]. split.
  - intros Hnone f Hchild Hexp. rewrite Hnone in Hhead.
    assert (Hin : In f (expiredNotes (now w) (ttlMinites (settings w)) children))
      by (apply In_expiredNotes; tauto).
    destruct (expiredNotes _ _ _); [destruct Hin | discriminate].
  - intros Hnone.
    destruct (sweptNotes _ _ _ _) as [| f rest] eqn:Hswept; [done |].
    assert (Hin : In f (sweptNotes (now w) (ttlMinites (settings w)) (vault w)
                          children)) by (rewrite Hswept; by left).
    apply In_sweptNotes, In_expiredNotes in Hin.
    destruct (Hnone f); tauto.
Qed.

(** X25.  On a host that leaves [folder.children] as it is while a sweep
    runs, a sweep that reaches the folder trashes a direct child if and
    only if it is a file with extension [md] whose age is strictly above
    [ttlMinites * 60000]. *)
Theorem sweep_on_kept_array_trashes_every_expired_note (w : World) p children :
  keepsChildrenWhileSweeping →
  checkInterval (settings w) ≠ 0 →
  confirmed (settings w) = true →
  resolvedFolder w = Some (AFolder p children) →
  ∀ c, In c children →
    ((∃ f, c = AFile f ∧ In f (deletedBy runCleanUp w)) ↔
     (∃ f, c = AFile f ∧ extension f = "md"
           ∧ now w - ctime (stat f) > ttlMinites (settings w) * 60000)).
Proof.
  intros Hkeep Hc Hf Hdir c Hin.
  pose proof (runCleanUp_folder w p children Hc Hf Hdir) as Hrun.
  apply deletedBy_afterSweep in Hrun. rewrite Hrun.
  rewrite sweptNotes_keeps by exact Hkeep.
  split.
  - intros (f & -> & Hdel). exists f. apply In_expiredNotes in Hdel. tauto.
  - intros (f & -> & Hext & Hage). exists f. split; [done |].
    apply In_expiredNotes. tauto.
Qed.

End SweepOutcome.

(** * The scheduler *)

Section Scheduler.
Context `{Host}.

Lemma exec_startInterval (w : World) :
  exec startInterval w =
  mkWorld (settings w) (Some (nextTimerId w))
          (foldl (fun v f => trashFile f v) (vault w) (sweepOutcome w).1)
          (now w)
          (notices w ++ intervalNotice (checkInterval (settings w))
                        :: (sweepOutcome w).2)
          (trashed w ++ (sweepOutcome w).1)
          (activeTimers w
             ++ [(nextTimerId w, toMilliSec (checkInterval (settings w)))])
          (S (nextTimerId w)).
Proof.
  unfold exec, startInterval, bind at 1, getSettings.
  set (banner := if checkInterval (settings w) =? 0 then _ else _).
  assert (Hb : banner = Notice (intervalNotice (checkInterval (settings w)))).
  { unfold banner, intervalNotice. by destruct (_ =? _). }
  rewrite Hb. unfold bind at 1, Notice at 1. unfold bind at 1.
  rewrite runCleanUp_outcome.
  erewrite sweepOutcome_ext by reflexivity.
  unfold bind, window_setInterval, setIntervalId, afterSweep. simpl.
  by rewrite <- app_assoc.
Qed.

Lemma exec_onunload (w : World) :
  exec onunload w =
  match intervalId w with
  | Some id =>
      mkWorld (settings w) None (vault w) (now w) (notices w) (trashed w)
              (filter (fun t => negb (Nat.eqb (fst t) id)) (activeTimers w))
              (nextTimerId w)
  | None => w
  end.
Proof.
  unfold exec, onunload, bind at 1, getIntervalId.
  by destruct (intervalId w).
Qed.

Lemma onunload_tracked (w : World) :
  tracksTimer w →
  exec onunload w =
  mkWorld (settings w) None (vault w) (now w) (notices w) (trashed w) []
          (nextTimerId w).
Proof.
  intros Ht. rewrite exec_onunload. unfold tracksTimer in Ht.
  destruct w as [s [id |] v n ns tr ts nx]; simpl in *.
  - destruct Ht as [ms ->]. cbn [filter list_filter].
    rewrite decide_False; [done |]. simpl. rewrite Nat.eqb_refl. simpl. tauto.
  - by rewrite Ht.
Qed.

Lemma exec_intervalFires (id : nat) (w : World) :
  exec (intervalFires id) w = w ∨ exec (intervalFires id) w = exec runCleanUp w.
Proof.
  unfold exec at 1 2, intervalFires.
  destruct (existsb _ _); [by right | by left].
Qed.

(** X5.  [startInterval] always opens with its notice, runs one sweep and
    then adds one timer to the window, of period [checkInterval * 60000],
    whose handle it stores; it changes no setting and cancels no timer, so
    a timer started earlier and not cleared keeps running. *)
Theorem startInterval_adds_one_timer (w : World) :
  let w' := exec startInterval w in
  activeTimers w' =
    activeTimers w ++ [(nextTimerId w, checkInterval (settings w) * 60000)]
  ∧ intervalId w' = Some (nextTimerId w)
  ∧ settings w' = settings w
  ∧ deletedBy startInterval w = deletedBy runCleanUp w
  ∧ noticesBy startInterval w =
      intervalNotice (checkInterval (settings w)) :: noticesBy runCleanUp w.
Proof.
  intros w'. subst w'. unfold deletedBy at 1, noticesBy at 1.
  rewrite exec_startInterval, deletedBy_runCleanUp, noticesBy_runCleanUp.
  simpl. by rewrite !drop_app_length.
Qed.

(** X6.  [onunload] clears the timer whose handle the plugin holds and
    forgets the handle; other timers, the settings, the vault and the
    logs are untouched; with no handle held it does nothing, and doing
    it twice is doing it once. *)
Theorem onunload_clears_own_timer (w : World) :
  let w' := exec onunload w in
  intervalId w' = None
  ∧ (∀ id ms, intervalId w = Some id → ¬ In (id, ms) (activeTimers w'))
  ∧ (∀ id ms, intervalId w ≠ Some id →
       (In (id, ms) (activeTimers w') ↔ In (id, ms) (activeTimers w)))
  ∧ (settings w' = settings w ∧ vault w' = vault w
     ∧ notices w' = notices w ∧ trashed w' = trashed w)
  ∧ (intervalId w = None → onunload w = (tt, w))
  ∧ exec onunload w' = w'.
Proof.
  intros w'. subst w'. rewrite !exec_onunload.
  destruct (intervalId w) as [id0 |] eqn:Hid; simpl.
  - split; [done |]. split; [| split; [| split; [done | split; [done | done]]]].
    + intros id ms [= <-]. rewrite <- list_elem_of_In, list_elem_of_filter.
      simpl. rewrite Nat.eqb_refl. simpl. tauto.
    + intros id ms Hne. rewrite <- !list_elem_of_In, list_elem_of_filter.
      simpl. split; [tauto |]. intros Hin. split; [| done].
      destruct (Nat.eqb_spec id id0) as [-> | _]; [congruence | done].
  - rewrite Hid. split; [done |]. split; [done |]. split; [done |].
    split; [done |]. split; [| done].
    intros _. unfold onunload, bind, getIntervalId. by rewrite Hid.
Qed.

End Scheduler.

(** * Stored settings *)

Section StoredSettings.

Lemma loadSettings_lookup (data : option JsObject) (k : string) :
  loadSettings data !! k =
  match data with
  | Some o =>
      match o !! k with
      | Some v => Some v
      | None => toObject DEFAULT_SETTINGS !! k
      end
  | None => toObject DEFAULT_SETTINGS !! k
  end.
Proof.
  unfold loadSettings, Object_assign. cbn [foldl].
  rewrite assignFrom_lookup.
  assert (Hdef : assignFrom ∅ (Some (toObject DEFAULT_SETTINGS)) !! k
                 = toObject DEFAULT_SETTINGS !! k).
  { rewrite assignFrom_lookup, lookup_empty.
    by destruct (toObject DEFAULT_SETTINGS !! k). }
  by rewrite Hdef.
Qed.

Lemma toObject_lookup (s : AutoTempCleanerSettings) (k : string) :
  toObject s !! k =
  if decide ("targetFolder" = k) then Some (JString (targetFolder s))
  else if decide ("ttlMinites" = k) then Some (JNumber (ttlMinites s))
  else if decide ("checkInterval" = k) then Some (JNumber (checkInterval s))
  else if decide ("confirmed" = k) then Some (JBoolean (confirmed s))
  else None.
Proof.
  unfold toObject. rewrite !lookup_insert, lookup_empty. reflexivity.
Qed.

Lemma toObject_same_keys (s s' : AutoTempCleanerSettings) (k : string) :
  toObject s !! k = None → toObject s' !! k = None.
Proof.
  rewrite !toObject_lookup. by repeat case_decide.
Qed.

Lemma asSettings_toObject (s : AutoTempCleanerSettings) :
  asSettings (toObject s) = Some s.
Proof.
  unfold asSettings. rewrite !toObject_lookup. by destruct s.
Qed.

Lemma load_saved (s : AutoTempCleanerSettings) :
  loadSettings (Some (toObject s)) = toObject s.
Proof.
  apply map_eq. intros k. rewrite loadSettings_lookup.
  destruct (toObject s !! k) eqn:Hk; [done |].
  by apply (toObject_same_keys s).
Qed.

(** X7.  What [saveSettings] stores, [loadSettings] gives back: for every
    settings value the stored object loads to the same object, and read
    at the declared type it is the settings that were saved. *)
Theorem saved_settings_load_back (s : AutoTempCleanerSettings) :
  loadSettings (Some (toObject s)) = toObject s
  ∧ asSettings (loadSettings (Some (toObject s))) = Some s.
Proof.
  split; [apply load_saved |].
  rewrite load_saved. apply asSettings_toObject.
Qed.

(** X8.  Loading is stable under a save and a load: storing the loaded
    object and loading it again gives the same object, whatever was
    stored, other keys and values of other types included. *)
Theorem load_save_load (data : option JsObject) :
  loadSettings (Some (loadSettings data)) = loadSettings data.
Proof.
  apply map_eq. intros k. rewrite (loadSettings_lookup (Some _)).
  destruct (loadSettings data !! k) eqn:Hk; [done |].
  rewrite loadSettings_lookup in Hk.
  destruct data as [o |]; [| done].
  by destruct (o !! k).
Qed.

(** X9.  The loaded object has the four settings keys whatever is stored,
    and keeps every stored key: its keys are those of the stored object
    together with the four of the defaults. *)
Theorem loaded_keys (data : JsObject) :
  dom (loadSettings (Some data)) =
    dom data ∪ {["targetFolder"; "ttlMinites"; "checkInterval"; "confirmed"]}
  ∧ dom (loadSettings None) =
    ({["targetFolder"; "ttlMinites"; "checkInterval"; "confirmed"]} : gset string).
Proof.
  assert (Hdef : ∀ k : string,
    is_Some (toObject DEFAULT_SETTINGS !! k) ↔
    k ∈ ({["targetFolder"; "ttlMinites"; "checkInterval"; "confirmed"]}
           : gset string)).
  { intros k. rewrite toObject_lookup.
    repeat destruct (decide _) as [<- | ?].
    1-4: split; [intros _; set_solver | eauto].
    split; [by intros [? [=]] |].
    rewrite !elem_of_union, !elem_of_singleton. intuition congruence. }
  split; apply set_eq; intros k.
  - rewrite elem_of_union, !elem_of_dom, <- Hdef, loadSettings_lookup.
    destruct (data !! k) as [v |].
    + split; eauto.
    + split; [by right | by intros [[? [=]] | ?]].
  - by rewrite elem_of_dom, <- Hdef, loadSettings_lookup.
Qed.

(** X10.  Loading validates nothing: stored numbers of any size become the
    time to live and the interval as they are, also below the bounds of
    the settings tab, while the keys that are not stored take their
    defaults. *)
Theorem load_takes_any_number (ttl interval : Z) :
  asSettings
    (loadSettings
       (Some (<["ttlMinites" := JNumber ttl]>
              (<["checkInterval" := JNumber interval]> ∅))))
  = Some (mkSettings "tmp" ttl interval false).
Proof.
  unfold asSettings. rewrite !loadSettings_lookup, !lookup_insert, !lookup_empty.
  reflexivity.
Qed.

End StoredSettings.

(** * The settings tab *)

Section TabFacts.
Context `{Host} `{Builtins}.

Lemma onResetClick_effect (d : Session) :
  onResetClick d =
  let w := plugin d in
  mkSession
    (mkWorld DEFAULT_SETTINGS (intervalId w) (vault w) (now w)
             (notices w ++ ["Settings have been reset."])
             (trashed w) (activeTimers w) (nextTimerId w))
    (Some (toObject DEFAULT_SETTINGS)).
Proof. reflexivity. Qed.

Lemma onTargetFolderChange_effect (value : string) (d : Session) :
  onTargetFolderChange value d =
  let w := plugin d in
  let s := mkSettings (String_trim value) (ttlMinites (settings w))
                      (checkInterval (settings w)) (confirmed (settings w)) in
  mkSession
    (mkWorld s (intervalId w) (vault w) (now w) (notices w)
             (trashed w) (activeTimers w) (nextTimerId w))
    (Some (toObject s)).
Proof. reflexivity. Qed.

Lemma onTtlChange_effect (value : string) (d : Session) :
  onTtlChange value d =
  match parseInt value with
  | Some n =>
      if (n >=? 1) && (n <=? 10080) then
        let w := plugin d in
        let s := mkSettings (targetFolder (settings w)) n
                            (checkInterval (settings w))
                            (confirmed (settings w)) in
        mkSession
          (mkWorld s (intervalId w) (vault w) (now w) (notices w)
                   (trashed w) (activeTimers w) (nextTimerId w))
          (Some (toObject s))
      else d
  | None => d
  end.
Proof.
  unfold onTtlChange. destruct (parseInt value) as [n |]; [| done].
  by destruct ((n >=? 1) && (n <=? 10080)).
Qed.

Lemma onCheckIntervalChange_effect (value : string) (d : Session) :
  onCheckIntervalChange value d =
  match parseInt value with
  | Some n =>
      if (n >=? 0) && (n <=? 1440) then
        let w := plugin d in
        let s := mkSettings (targetFolder (settings w)) (ttlMinites (settings w))
                            n (confirmed (settings w)) in
        mkSession
          (exec startInterval
             (exec onunload
                (mkWorld s (intervalId w) (vault w) (now w) (notices w)
                         (trashed w) (activeTimers w) (nextTimerId w))))
          (Some (toObject s))
      else d
  | None => d
  end.
Proof.
  unfold onCheckIntervalChange. destruct (parseInt value) as [n |]; [| done].
  by destruct ((n >=? 0) && (n <=? 1440)).
Qed.

Lemma onConfirmChange_effect (value : bool) (d : Session) :
  onConfirmChange value d =
  let w := plugin d in
  let s := mkSettings (targetFolder (settings w)) (ttlMinites (settings w))
                      (checkInterval (settings w)) value in
  mkSession
    (mkWorld s (intervalId w) (vault w) (now w)
             (notices w ++ [if value
                            then "Automatic deletion is now enabled."
                            else "Automatic deletion is now disabled."])
             (trashed w) (activeTimers w) (nextTimerId w))
    (Some (toObject s)).
Proof. reflexivity. Qed.

Lemma run_cons (e : Event) (events : list Event) (d : Session) :
  run (e :: events) d = run events (handle e d).
Proof. reflexivity. Qed.

(** An invariant of every event is an invariant of every run. *)
Lemma run_invariant (P : Session → Prop) (allowed : Event → Prop) :
  (∀ e d, allowed e → P d → P (handle e d)) →
  ∀ events d, Forall allowed events → P d → P (run events d).
Proof.
  intros Hstep events. induction events as [| e rest IH]; intros d Hall Hd.
  - exact Hd.
  - rewrite run_cons. inversion Hall; subst. apply IH; [done |].
    by apply Hstep.
Qed.

Lemma Forall_any (events : list Event) : Forall (fun _ => True) events.
Proof. by apply Forall_forall. Qed.

Ltac unfold_interval_change n :=
  rewrite onCheckIntervalChange_effect;
  destruct (parseInt _) as [n |]; [| try done];
  [destruct ((n >=? 0) && (n <=? 1440)) eqn:?; [| try done]].

Ltac cases_interval_change n :=
  rewrite onCheckIntervalChange_effect;
  destruct (parseInt _) as [n |];
  [destruct ((n >=? 0) && (n <=? 1440)) eqn:? |].

Ltac cases_ttl_change n :=
  rewrite onTtlChange_effect;
  destruct (parseInt _) as [n |];
  [destruct ((n >=? 1) && (n <=? 10080)) eqn:? |].

Ltac unfold_ttl_change n :=
  rewrite onTtlChange_effect;
  destruct (parseInt _) as [n |]; [| try done];
  [destruct ((n >=? 1) && (n <=? 10080)) eqn:?; [| try done]].

Lemma handle_tracksTimer (e : Event) (d : Session) :
  tracksTimer (plugin d) → tracksTimer (plugin (handle e d)).
Proof.
  intros Ht. destruct e as [| value | value | value | value | id |]; simpl.
  - exact Ht.
  - exact Ht.
  - unfold_ttl_change n. exact Ht.
  - unfold_interval_change n. simpl.
    rewrite exec_startInterval, onunload_tracked by exact Ht.
    unfold tracksTimer. simpl. eauto.
  - exact Ht.
  - unfold onPlugin. simpl.
    destruct (exec_intervalFires id (plugin d)) as [-> | ->]; [done |].
    by rewrite exec_runCleanUp.
  - unfold onPlugin. simpl. rewrite onunload_tracked by exact Ht. done.
Qed.

(** X11.  Once loaded, the plugin never has two timers running and never
    loses track of its timer: if the window holds no timer but the one
    whose handle the plugin keeps, this is still so after any sequence of
    edits in the tab, timer ticks and unloads. *)
Theorem plugin_keeps_track_of_its_timer (events : list Event) (d : Session) :
  tracksTimer (plugin d) → tracksTimer (plugin (run events d)).
Proof.
  intros Ht.
  apply (run_invariant (fun d => tracksTimer (plugin d)) (fun _ => True));
    [| apply Forall_any | exact Ht].
  intros e d' _. apply handle_tracksTimer.
Qed.

Lemma handle_withinBounds (e : Event) (d : Session) :
  withinBounds (settings (plugin d)) →
  withinBounds (settings (plugin (handle e d))).
Proof.
  intros Hb. pose proof Hb as [Httl Hint].
  destruct e as [| value | value | value | value | id |]; simpl.
  - unfold withinBounds. simpl. lia.
  - exact Hb.
  - unfold_ttl_change n. unfold withinBounds. simpl. lia.
  - unfold_interval_change n. simpl. rewrite exec_startInterval, exec_onunload.
    unfold withinBounds. simpl. destruct (intervalId (plugin d)); simpl; lia.
  - exact Hb.
  - unfold onPlugin. simpl.
    destruct (exec_intervalFires id (plugin d)) as [-> | ->]; [done |].
    by rewrite exec_runCleanUp.
  - unfold onPlugin. simpl. rewrite exec_onunload.
    by destruct (intervalId (plugin d)).
Qed.

(** X12.  The tab never writes a number outside its bounds: with the time
    to live in 1..10080 and the interval in 0..1440, both stay there
    through any sequence of edits, resets, ticks and unloads. *)
Theorem tab_keeps_settings_within_bounds (events : list Event) (d : Session) :
  withinBounds (settings (plugin d)) →
  withinBounds (settings (plugin (run events d))).
Proof.
  intros Hb.
  apply (run_invariant (fun d => withinBounds (settings (plugin d)))
                       (fun _ => True));
    [| apply Forall_any | exact Hb].
  intros e d' _. apply handle_withinBounds.
Qed.

Lemma handle_periodsFit (e : Event) (d : Session) :
  periodsFit (plugin d) → periodsFit (plugin (handle e d)).
Proof.
  intros Hp. destruct e as [| value | value | value | value | id |]; simpl.
  - exact Hp.
  - exact Hp.
  - unfold_ttl_change n. exact Hp.
  - unfold_interval_change n. simpl. rewrite exec_startInterval, exec_onunload.
    intros id ms. simpl. rewrite in_app_iff. intros [Hold | [[= <- <-] | []]].
    + apply (Hp id ms). destruct (intervalId (plugin d)); simpl in Hold; [| done].
      apply list_elem_of_In, list_elem_of_filter in Hold as [_ Hold].
      by apply list_elem_of_In.
    + destruct (intervalId (plugin d)); simpl; unfold toMilliSec; lia.
  - exact Hp.
  - unfold onPlugin. simpl.
    destruct (exec_intervalFires id (plugin d)) as [-> | ->]; [done |].
    by rewrite exec_runCleanUp.
  - unfold onPlugin. simpl. rewrite exec_onunload.
    destruct (intervalId (plugin d)); [| done].
    intros id ms Hin. simpl in Hin. apply (Hp id ms).
    apply list_elem_of_In, list_elem_of_filter in Hin as [_ Hin].
    by apply list_elem_of_In.
Qed.

(** X13.  Every timer the tab starts has a period between 0 and one day
    (86400000 ms), which fits the 32-bit delay of [setInterval]: if the
    periods in the window are in that range, they are after any sequence
    of events. *)
Theorem tab_keeps_periods_within_a_day (events : list Event) (d : Session) :
  periodsFit (plugin d) → periodsFit (plugin (run events d)).
Proof.
  intros Hp.
  apply (run_invariant (fun d => periodsFit (plugin d)) (fun _ => True));
    [| apply Forall_any | exact Hp].
  intros e d' _. apply handle_periodsFit.
Qed.

Lemma persisted_saved (w : World) :
  persisted (mkSession w (Some (toObject (settings w)))).
Proof.
  unfold persisted. simpl. rewrite load_saved. apply asSettings_toObject.
Qed.

Lemma handle_persisted (e : Event) (d : Session) :
  persisted d → persisted (handle e d).
Proof.
  intros Hp. destruct e as [| value | value | value | value | id |]; simpl.
  - apply persisted_saved.
  - apply persisted_saved.
  - unfold_ttl_change n. apply persisted_saved.
  - unfold_interval_change n. simpl. unfold persisted. simpl.
    rewrite load_saved, asSettings_toObject, exec_startInterval, exec_onunload.
    by destruct (intervalId (plugin d)).
  - apply persisted_saved.
  - unfold onPlugin, persisted in *. simpl. rewrite Hp.
    destruct (exec_intervalFires id (plugin d)) as [-> | ->]; [done |].
    by rewrite exec_runCleanUp.
  - unfold onPlugin, persisted in *. simpl. rewrite Hp, exec_onunload.
    by destruct (intervalId (plugin d)).
Qed.

Lemma onload_effect (d : Session) (s : AutoTempCleanerSettings) :
  asSettings (loadSettings (dataJson d)) = Some s →
  onload d =
  Some (mkSession
          (exec startInterval
             (mkWorld s (intervalId (plugin d)) (vault (plugin d))
                      (now (plugin d)) (notices (plugin d))
                      (trashed (plugin d)) (activeTimers (plugin d))
                      (nextTimerId (plugin d))))
          (dataJson d)).
Proof. intros Hs. unfold onload. by rewrite Hs. Qed.

(** X14.  Settings survive a restart: when what is stored loads to the
    settings in force, then after any sequence of events a plugin
    started afresh on the stored data runs with the settings the old one
    ended with. *)
Theorem settings_survive_restart (events : list Event) (d : Session)
    (afresh : World) :
  persisted d →
  persisted (run events d)
  ∧ ∃ d', onload (mkSession afresh (dataJson (run events d))) = Some d'
          ∧ settings (plugin d') = settings (plugin (run events d)).
Proof.
  intros Hp.
  assert (Hrun : persisted (run events d)).
  { apply (run_invariant persisted (fun _ => True));
      [| apply Forall_any | exact Hp].
    intros e d' _. apply handle_persisted. }
  split; [exact Hrun |].
  eexists. split; [by apply onload_effect |].
  simpl. by rewrite exec_startInterval.
Qed.

(** X15.  [onload] on stored data of the declared type: the plugin runs
    with the loaded settings, shows the notice of [startInterval], has
    swept once and has added one timer of period [checkInterval * 60000]
    whose handle it keeps; the stored data are not rewritten. *)
Theorem onload_starts_with_loaded_settings (d : Session)
    (s : AutoTempCleanerSettings) :
  asSettings (loadSettings (dataJson d)) = Some s →
  ∃ d', onload d = Some d'
    ∧ settings (plugin d') = s
    ∧ dataJson d' = dataJson d
    ∧ persisted d'
    ∧ activeTimers (plugin d') =
        activeTimers (plugin d) ++ [(nextTimerId (plugin d), checkInterval s * 60000)]
    ∧ intervalId (plugin d') = Some (nextTimerId (plugin d))
    ∧ (activeTimers (plugin d) = [] → tracksTimer (plugin d')).
Proof.
  intros Hs. eexists. split; [by apply onload_effect |].
  unfold persisted. simpl. rewrite exec_startInterval. simpl.
  repeat split; try done.
  intros ->. unfold tracksTimer. simpl. eauto.
Qed.

(** X16.  A first start, with nothing stored, is harmless: the plugin runs
    with the defaults, shows that the cleaner is stopped, and leaves the
    vault and the trash log as they were. *)
Theorem first_start_deletes_nothing (d : Session) :
  dataJson d = None →
  ∃ d', onload d = Some d'
    ∧ settings (plugin d') = DEFAULT_SETTINGS
    ∧ vault (plugin d') = vault (plugin d)
    ∧ trashed (plugin d') = trashed (plugin d)
    ∧ notices (plugin d') =
        notices (plugin d) ++ ["Auto Temp Cleaner has been stopped."].
Proof.
  intros Hnone.
  assert (Hs : asSettings (loadSettings (dataJson d)) = Some DEFAULT_SETTINGS)
    by (by rewrite Hnone).
  eexists. split; [by apply onload_effect |].
  rewrite exec_startInterval. unfold sweepOutcome. simpl.
  by rewrite app_nil_r.
Qed.

Lemma sweepOutcome_gate (w : World) :
  (sweepOutcome w).1 ≠ [] →
  confirmed (settings w) = true ∧ checkInterval (settings w) ≠ 0.
Proof.
  intros Hne. destruct (sweepOutcome w).1 as [| f rest] eqn:Hd; [done |].
  assert (Hin : In f (sweepOutcome w).1) by (rewrite Hd; by left).
  apply sweepOutcome_deleted in Hin. tauto.
Qed.

(** X17.  Whatever happens to a loaded plugin, files are only handed to
    [trashFile] by a sweep, on a timer tick or on a change of the
    interval, and only with the confirmation given and an interval that
    is not 0 in the settings then in force; the vault changes by these
    calls alone. *)
Theorem events_trash_only_when_enabled (e : Event) (d : Session) :
  let w := plugin d in
  let w' := plugin (handle e d) in
  ∃ deleted,
    trashed w' = trashed w ++ deleted
    ∧ vault w' = foldl (fun v f => trashFile f v) (vault w) deleted
    ∧ (deleted ≠ [] →
       confirmed (settings w') = true
       ∧ checkInterval (settings w') ≠ 0
       ∧ ((∃ id, e = IntervalElapsed id) ∨ ∃ value, e = CheckIntervalChanged value)).
Proof.
  intros w w'. subst w w'.
  assert (Hsame : ∀ d', trashed (plugin d') = trashed (plugin d) →
                        vault (plugin d') = vault (plugin d) →
    ∃ deleted,
      trashed (plugin d') = trashed (plugin d) ++ deleted
      ∧ vault (plugin d') = foldl (fun v f => trashFile f v) (vault (plugin d)) deleted
      ∧ (deleted ≠ [] →
         confirmed (settings (plugin d')) = true
         ∧ checkInterval (settings (plugin d')) ≠ 0
         ∧ ((∃ id, e = IntervalElapsed id) ∨ ∃ value, e = CheckIntervalChanged value))).
  { intros d' Ht Hv. exists []. by rewrite app_nil_r. }
  destruct e as [| value | value | value | value | id |]; cbn [handle].
  - by apply Hsame.
  - by apply Hsame.
  - cases_ttl_change n; by apply Hsame.
  - cases_interval_change n; [| by apply Hsame | by apply Hsame].
    simpl. rewrite exec_startInterval.
    set (w1 := exec onunload _).
    assert (Hw1 : settings w1 = mkSettings (targetFolder (settings (plugin d)))
                                  (ttlMinites (settings (plugin d))) n
                                  (confirmed (settings (plugin d)))
                  ∧ trashed w1 = trashed (plugin d)
                  ∧ vault w1 = vault (plugin d)).
    { subst w1. rewrite exec_onunload. by destruct (intervalId (plugin d)). }
    destruct Hw1 as (Hs1 & Ht1 & Hv1).
    exists (sweepOutcome w1).1. simpl. rewrite Ht1, Hv1.
    split; [done |]. split; [done |].
    intros Hne. apply sweepOutcome_gate in Hne as [Hf Hc].
    split; [done |]. split; [done |]. right. by eexists.
  - by apply Hsame.
  - unfold onPlugin. simpl.
    destruct (exec_intervalFires id (plugin d)) as [-> | ->].
    + exists []. by rewrite app_nil_r.
    + rewrite exec_runCleanUp. exists (sweepOutcome (plugin d)).1. simpl.
      split; [done |]. split; [done |].
      intros Hne. apply sweepOutcome_gate in Hne as [Hf Hc].
      split; [done |]. split; [done |]. left. by eexists.
  - apply Hsame; unfold onPlugin; simpl; rewrite exec_onunload;
      by destruct (intervalId (plugin d)).
Qed.

Lemma handle_unconfirmed (e : Event) (d : Session) :
  e ≠ ConfirmChanged true →
  confirmed (settings (plugin d)) = false →
  confirmed (settings (plugin (handle e d))) = false
  ∧ trashed (plugin (handle e d)) = trashed (plugin d)
  ∧ vault (plugin (handle e d)) = vault (plugin d).
Proof.
  intros He Hf.
  assert (Hquiet : ∀ w : World, confirmed (settings w) = false →
                                (sweepOutcome w).1 = []).
  { intros w Hw. destruct (sweepOutcome w).1 eqn:Hd; [done |].
    assert (Hne : (sweepOutcome w).1 ≠ []) by (by rewrite Hd).
    apply sweepOutcome_gate in Hne. destruct Hne. congruence. }
  destruct e as [| value | value | value | value | id |]; simpl; try done.
  - by unfold_ttl_change n.
  - unfold_interval_change n. simpl. rewrite exec_startInterval.
    set (w1 := exec onunload _).
    assert (Hw1 : confirmed (settings w1) = false
                  ∧ trashed w1 = trashed (plugin d)
                  ∧ vault w1 = vault (plugin d)).
    { subst w1. rewrite exec_onunload. by destruct (intervalId (plugin d)). }
    destruct Hw1 as (Hf1 & Ht1 & Hv1). simpl.
    rewrite (Hquiet w1 Hf1), app_nil_r. done.
  - destruct value; [done |]. done.
  - unfold onPlugin. simpl.
    destruct (exec_intervalFires id (plugin d)) as [-> | ->]; [done |].
    rewrite exec_runCleanUp. simpl. rewrite (Hquiet _ Hf), app_nil_r. done.
  - unfold onPlugin. simpl. rewrite exec_onunload.
    by destruct (intervalId (plugin d)).
Qed.

(** X18.  Without the confirmation the plugin never deletes: starting
    unconfirmed, through any sequence of events in which the toggle is
    not switched on, no file is handed to [trashFile] and the vault stays
    as it is, whatever the interval, the folder and the time to live are
    set to and however often the timer fires. *)
Theorem unconfirmed_plugin_never_deletes (events : list Event) (d : Session) :
  confirmed (settings (plugin d)) = false →
  Forall (fun e => e ≠ ConfirmChanged true) events →
  trashed (plugin (run events d)) = trashed (plugin d)
  ∧ vault (plugin (run events d)) = vault (plugin d)
  ∧ confirmed (settings (plugin (run events d))) = false.
Proof.
  intros Hf Hall.
  pose proof (run_invariant
    (fun d' => confirmed (settings (plugin d')) = false
               ∧ trashed (plugin d') = trashed (plugin d)
               ∧ vault (plugin d') = vault (plugin d))
    (fun e => e ≠ ConfirmChanged true)) as Hinv.
  cbv beta in Hinv.
  destruct (Hinv) with (events := events) (d := d) as (? & ? & ?); try done.
  intros e d' He (Hf' & Ht' & Hv').
  destruct (handle_unconfirmed e d' He Hf') as (? & -> & ->). done.
Qed.

Lemma handle_stopped (e : Event) (d : Session) :
  (∀ value, e ≠ CheckIntervalChanged value) →
  checkInterval (settings (plugin d)) = 0 →
  checkInterval (settings (plugin (handle e d))) = 0
  ∧ trashed (plugin (handle e d)) = trashed (plugin d)
  ∧ vault (plugin (handle e d)) = vault (plugin d).
Proof.
  intros He Hc.
  destruct e as [| value | value | value | value | id |]; simpl; try done.
  - by unfold_ttl_change n.
  - by destruct (He value).
  - unfold onPlugin. simpl.
    destruct (exec_intervalFires id (plugin d)) as [-> | ->]; [done |].
    unfold exec. by rewrite runCleanUp_disabled.
  - unfold onPlugin. simpl. rewrite exec_onunload.
    by destruct (intervalId (plugin d)).
Qed.

(** X19.  With the interval at 0 the plugin never deletes: until the
    interval field is edited, no event, timer ticks of a timer left
    running included, hands a file to [trashFile] or changes the vault. *)
Theorem stopped_plugin_never_deletes (events : list Event) (d : Session) :
  checkInterval (settings (plugin d)) = 0 →
  Forall (fun e => ∀ value, e ≠ CheckIntervalChanged value) events →
  trashed (plugin (run events d)) = trashed (plugin d)
  ∧ vault (plugin (run events d)) = vault (plugin d)
  ∧ checkInterval (settings (plugin (run events d))) = 0.
Proof.
  intros Hc Hall.
  pose proof (run_invariant
    (fun d' => checkInterval (settings (plugin d')) = 0
               ∧ trashed (plugin d') = trashed (plugin d)
               ∧ vault (plugin d') = vault (plugin d))
    (fun e => ∀ value, e ≠ CheckIntervalChanged value)) as Hinv.
  cbv beta in Hinv.
  destruct (Hinv) with (events := events) (d := d) as (? & ? & ?); try done.
  intros e d' He (Hc' & Ht' & Hv').
  destruct (handle_stopped e d' He Hc') as (? & -> & ->). done.
Qed.

(** X20.  The reset button puts the defaults in force and stores them, and
    shows its notice; it neither clears nor restarts the timer, which
    keeps its old period, but from then on a tick of any timer changes
    nothing. *)
Theorem reset_disables_without_clearing_timer (d : Session) (id : nat) :
  let d' := handle ResetClicked d in
  settings (plugin d') = DEFAULT_SETTINGS
  ∧ dataJson d' = Some (toObject DEFAULT_SETTINGS)
  ∧ activeTimers (plugin d') = activeTimers (plugin d)
  ∧ intervalId (plugin d') = intervalId (plugin d)
  ∧ notices (plugin d') = notices (plugin d) ++ ["Settings have been reset."]
  ∧ vault (plugin d') = vault (plugin d)
  ∧ handle (IntervalElapsed id) d' = d'.
Proof.
  intros d'. subst d'. simpl. rewrite onResetClick_effect. simpl.
  repeat split.
  unfold onPlugin. simpl. f_equal.
  match goal with |- exec (intervalFires id) ?w = _ =>
    destruct (exec_intervalFires id w) as [-> | ->]; [done |];
    unfold exec; by rewrite runCleanUp_disabled
  end.
Qed.

(** X21.  An accepted edit of the interval: when [parseInt] gives a number
    from 0 to 1440 and the plugin kept track of its timer, that number
    is the interval in force and in the stored data, the other settings
    are kept, the old timer is gone and the window holds exactly one
    timer, of period [n * 60000], whose handle the plugin keeps. *)
Theorem interval_edit_restarts_scheduler (value : string) (n : Z) (d : Session) :
  parseInt value = Some n →
  0 ≤ n ≤ 1440 →
  tracksTimer (plugin d) →
  let d' := handle (CheckIntervalChanged value) d in
  settings (plugin d') =
    mkSettings (targetFolder (settings (plugin d)))
               (ttlMinites (settings (plugin d))) n
               (confirmed (settings (plugin d)))
  ∧ dataJson d' = Some (toObject (settings (plugin d')))
  ∧ activeTimers (plugin d') = [(nextTimerId (plugin d), n * 60000)]
  ∧ intervalId (plugin d') = Some (nextTimerId (plugin d)).
Proof.
  intros Hparse Hn Ht d'. subst d'. simpl.
  rewrite onCheckIntervalChange_effect, Hparse.
  assert (Hok : (n >=? 0) && (n <=? 1440) = true) by lia.
  rewrite Hok. simpl.
  rewrite exec_startInterval, onunload_tracked by exact Ht.
  simpl. done.
Qed.

(** X22.  An edit of the expiration field: a number from 1 to 10080 becomes
    the time to live in force and in the stored data, with neither a
    sweep nor a change of the timer; any other input, [NaN] included,
    changes nothing at all, and an input outside 0..1440 changes
    nothing in the interval field. *)
Theorem number_fields_accept_only_their_range (value : string) (d : Session) :
  (∀ n, parseInt value = Some n → 1 ≤ n ≤ 10080 →
     let d' := handle (TtlChanged value) d in
     ttlMinites (settings (plugin d')) = n
     ∧ dataJson d' = Some (toObject (settings (plugin d')))
     ∧ activeTimers (plugin d') = activeTimers (plugin d)
     ∧ trashed (plugin d') = trashed (plugin d)
     ∧ notices (plugin d') = notices (plugin d))
  ∧ ((∀ n, parseInt value = Some n → n < 1 ∨ 10080 < n) →
     handle (TtlChanged value) d = d)
  ∧ ((∀ n, parseInt value = Some n → n < 0 ∨ 1440 < n) →
     handle (CheckIntervalChanged value) d = d).
Proof.
  split; [| split].
  - intros n Hparse Hn d'. subst d'. simpl.
    rewrite onTtlChange_effect, Hparse.
    assert (Hok : (n >=? 1) && (n <=? 10080) = true) by lia.
    by rewrite Hok.
  - intros Hout. simpl. rewrite onTtlChange_effect.
    destruct (parseInt value) as [n |]; [| done].
    destruct (Hout n eq_refl);
      assert (Hno : (n >=? 1) && (n <=? 10080) = false) by lia;
      by rewrite Hno.
  - intros Hout. simpl. rewrite onCheckIntervalChange_effect.
    destruct (parseInt value) as [n |]; [| done].
    destruct (Hout n eq_refl);
      assert (Hno : (n >=? 0) && (n <=? 1440) = false) by lia;
      by rewrite Hno.
Qed.

End TabFacts.

(** * The further properties on the vault in memory *)

Import PlainInput.

Example busy_day_ends_unloaded_with_defaults :
  settings (plugin (run busyDay loaded)) = DEFAULT_SETTINGS
  ∧ activeTimers (plugin (run busyDay loaded)) = []
  ∧ intervalId (plugin (run busyDay loaded)) = None.
Proof. vm_compute. repeat split. Qed.

Lemma sweep_trashes_in_order_once_witness :
  resolvedFolder running = Some (AFolder "tmp" tmpChildren)
  ∧ (map AFile (deletedBy runCleanUp running) `sublist_of` tmpChildren
     ∧ (NoDup tmpChildren → NoDup (deletedBy runCleanUp running))
     ∧ (length (deletedBy runCleanUp running) ≤ length tmpChildren)%nat).
Proof.
  split; [reflexivity |].
  apply (sweep_trashes_in_order_once running "tmp" tmpChildren). reflexivity.
Defined.

Lemma sweep_monotone_in_ttl_witness :
  let a := mkFile "tmp/a.md" "md" (mkStats 2800000) in
  (@keepsChildrenWhileSweeping lazyHost
   ∧ ttlMinites (settings lazyRunning) ≤ 100
   ∧ In a (deletedBy runCleanUp (exec (assignTtlMinites 100) lazyRunning)))
  ∧ In a (deletedBy runCleanUp lazyRunning).
Proof.
  intros a.
  assert (Hkeep : @keepsChildrenWhileSweeping lazyHost)
    by (intros f v; reflexivity).
  assert (Hle : ttlMinites (settings lazyRunning) ≤ 100) by discriminate.
  assert (Hin : In a (deletedBy runCleanUp
                        (exec (assignTtlMinites 100) lazyRunning)))
    by (left; reflexivity).
  split; [tauto |].
  exact (sweep_monotone_in_ttl lazyRunning 100 a Hkeep Hle Hin).
Defined.

Lemma second_sweep_deletes_nothing_witness :
  let after := exec runCleanUp lazyRunning in
  (@keepsChildrenWhileSweeping lazyHost
   ∧ settings after = settings lazyRunning
   ∧ now after = now lazyRunning
   ∧ resolvedFolder lazyRunning = Some (AFolder "tmp" tmpChildren)
   ∧ resolvedFolder after = Some (AFolder "tmp" (tl tmpChildren))
   ∧ (∀ f, In (AFile f) (tl tmpChildren) →
        In (AFile f) tmpChildren ∧ ¬ In f (deletedBy runCleanUp lazyRunning)))
  ∧ deletedBy runCleanUp after = [].
Proof.
  intros after.
  assert (Hkeep : @keepsChildrenWhileSweeping lazyHost)
    by (intros f v; reflexivity).
  assert (Hs : settings after = settings lazyRunning) by reflexivity.
  assert (Hn : now after = now lazyRunning) by reflexivity.
  assert (Hdir : resolvedFolder lazyRunning = Some (AFolder "tmp" tmpChildren))
    by reflexivity.
  assert (Hdir2 : resolvedFolder after = Some (AFolder "tmp" (tl tmpChildren)))
    by reflexivity.
  assert (Hleft : ∀ f, In (AFile f) (tl tmpChildren) →
            In (AFile f) tmpChildren
            ∧ ¬ In f (deletedBy runCleanUp lazyRunning)).
  { intros f Hin. split; [by right |].
    change (deletedBy runCleanUp lazyRunning)
      with [mkFile "tmp/a.md" "md" (mkStats 2800000)].
    simpl in Hin. intros [<- | []].
    decompose [or] Hin; discriminate || contradiction. }
  split; [tauto |].
  exact (second_sweep_deletes_nothing lazyRunning after "tmp" tmpChildren
           "tmp" (tl tmpChildren) Hkeep Hs Hn Hdir Hdir2 Hleft).
Defined.

Lemma sweep_trashes_only_expired_notes_witness :
  let a := mkFile "tmp/a.md" "md" (mkStats 2800000) in
  In a (deletedBy runCleanUp running)
  ∧ checkInterval (settings running) ≠ 0
  ∧ confirmed (settings running) = true
  ∧ ∃ p children, resolvedFolder running = Some (AFolder p children)
      ∧ In (AFile a) children
      ∧ extension a = "md"
      ∧ now running - ctime (stat a) > ttlMinites (settings running) * 60000.
Proof.
  intros a.
  assert (Hin : In a (deletedBy runCleanUp running)) by (left; reflexivity).
  split; [exact Hin |].
  exact (proj1 (sweep_trashes_only_expired_notes running a) Hin).
Defined.

Lemma sweep_trashes_first_expired_note_witness :
  (checkInterval (settings negativeTtl) ≠ 0
   ∧ confirmed (settings negativeTtl) = true
   ∧ resolvedFolder negativeTtl = Some (AFolder "tmp" tmpChildren))
  ∧ head (deletedBy runCleanUp negativeTtl)
    = head (expiredNotes (now negativeTtl) (ttlMinites (settings negativeTtl))
              tmpChildren)
  ∧ (deletedBy runCleanUp negativeTtl = [] ↔
     ∀ f, In (AFile f) tmpChildren →
          ¬ (extension f = "md"
             ∧ now negativeTtl - ctime (stat f)
               > ttlMinites (settings negativeTtl) * 60000)).
Proof.
  assert (Hc : checkInterval (settings negativeTtl) ≠ 0) by discriminate.
  assert (Hf : confirmed (settings negativeTtl) = true) by reflexivity.
  assert (Hdir : resolvedFolder negativeTtl = Some (AFolder "tmp" tmpChildren))
    by reflexivity.
  split; [tauto |].
  exact (sweep_trashes_first_expired_note negativeTtl "tmp" tmpChildren
           Hc Hf Hdir).
Defined.

Lemma sweep_on_kept_array_trashes_every_expired_note_witness :
  let c := note "tmp/b.md" 8200000 in
  (@keepsChildrenWhileSweeping lazyHost
   ∧ checkInterval (settings lazyNegativeTtl) ≠ 0
   ∧ confirmed (settings lazyNegativeTtl) = true
   ∧ resolvedFolder lazyNegativeTtl = Some (AFolder "tmp" tmpChildren)
   ∧ In c tmpChildren)
  ∧ ((∃ f, c = AFile f ∧ In f (deletedBy runCleanUp lazyNegativeTtl)) ↔
     (∃ f, c = AFile f ∧ extension f = "md"
           ∧ now lazyNegativeTtl - ctime (stat f)
             > ttlMinites (settings lazyNegativeTtl) * 60000)).
Proof.
  intros c.
  assert (Hkeep : @keepsChildrenWhileSweeping lazyHost)
    by (intros f v; reflexivity).
  assert (Hc : checkInterval (settings lazyNegativeTtl) ≠ 0) by discriminate.
  assert (Hf : confirmed (settings lazyNegativeTtl) = true) by reflexivity.
  assert (Hdir : resolvedFolder lazyNegativeTtl
                 = Some (AFolder "tmp" tmpChildren)) by reflexivity.
  assert (Hin : In c tmpChildren) by (right; left; reflexivity).
  split; [tauto |].
  exact (sweep_on_kept_array_trashes_every_expired_note lazyNegativeTtl "tmp"
           tmpChildren Hkeep Hc Hf Hdir c Hin).
Defined.

Lemma plugin_keeps_track_of_its_timer_witness :
  tracksTimer (plugin loaded) ∧ tracksTimer (plugin (run busyDay loaded)).
Proof.
  assert (Ht : tracksTimer (plugin loaded)) by (vm_compute; eexists; reflexivity).
  split; [exact Ht |].
  exact (plugin_keeps_track_of_its_timer busyDay loaded Ht).
Defined.

Lemma tab_keeps_settings_within_bounds_witness :
  withinBounds (settings (plugin loaded))
  ∧ withinBounds (settings (plugin (run busyDay loaded))).
Proof.
  assert (Hb : withinBounds (settings (plugin loaded)))
    by (vm_compute; repeat split; discriminate).
  split; [exact Hb |].
  exact (tab_keeps_settings_within_bounds busyDay loaded Hb).
Defined.

Lemma tab_keeps_periods_within_a_day_witness :
  periodsFit (plugin loaded) ∧ periodsFit (plugin (run busyDay loaded)).
Proof.
  assert (Hp : periodsFit (plugin loaded)).
  { intros id ms Hin. vm_compute in Hin.
    destruct Hin as [[= <- <-] | []]. split; discriminate. }
  split; [exact Hp |].
  exact (tab_keeps_periods_within_a_day busyDay loaded Hp).
Defined.

Lemma settings_survive_restart_witness :
  persisted loaded
  ∧ persisted (run busyDay loaded)
  ∧ ∃ d', onload (mkSession fresh (dataJson (run busyDay loaded))) = Some d'
          ∧ settings (plugin d') = settings (plugin (run busyDay loaded)).
Proof.
  assert (Hp : persisted loaded) by (vm_compute; reflexivity).
  split; [exact Hp |].
  exact (settings_survive_restart busyDay loaded fresh Hp).
Defined.

Lemma onload_starts_with_loaded_settings_witness :
  asSettings (loadSettings (dataJson stored)) = Some (mkSettings "tmp" 60 10 true)
  ∧ ∃ d', onload stored = Some d'
    ∧ settings (plugin d') = mkSettings "tmp" 60 10 true
    ∧ dataJson d' = dataJson stored
    ∧ persisted d'
    ∧ activeTimers (plugin d') =
        activeTimers (plugin stored)
          ++ [(nextTimerId (plugin stored),
               checkInterval (mkSettings "tmp" 60 10 true) * 60000)]
    ∧ intervalId (plugin d') = Some (nextTimerId (plugin stored))
    ∧ (activeTimers (plugin stored) = [] → tracksTimer (plugin d')).
Proof.
  assert (Hs : asSettings (loadSettings (dataJson stored))
               = Some (mkSettings "tmp" 60 10 true))
    by (vm_compute; reflexivity).
  split; [exact Hs |].
  exact (onload_starts_with_loaded_settings stored _ Hs).
Defined.

Lemma first_start_deletes_nothing_witness :
  dataJson firstRun = None
  ∧ ∃ d', onload firstRun = Some d'
    ∧ settings (plugin d') = DEFAULT_SETTINGS
    ∧ vault (plugin d') = vault (plugin firstRun)
    ∧ trashed (plugin d') = trashed (plugin firstRun)
    ∧ notices (plugin d') =
        notices (plugin firstRun) ++ ["Auto Temp Cleaner has been stopped."].
Proof.
  split; [reflexivity |].
  apply (first_start_deletes_nothing firstRun). reflexivity.
Defined.

Lemma unconfirmed_plugin_never_deletes_witness :
  (confirmed (settings (plugin unconfirmedSession)) = false
   ∧ Forall (fun e => e ≠ ConfirmChanged true) cautiousDay)
  ∧ trashed (plugin (run cautiousDay unconfirmedSession))
    = trashed (plugin unconfirmedSession)
  ∧ vault (plugin (run cautiousDay unconfirmedSession))
    = vault (plugin unconfirmedSession)
  ∧ confirmed (settings (plugin (run cautiousDay unconfirmedSession))) = false.
Proof.
  assert (Hf : confirmed (settings (plugin unconfirmedSession)) = false)
    by reflexivity.
  assert (Hall : Forall (fun e => e ≠ ConfirmChanged true) cautiousDay)
    by (repeat constructor; discriminate).
  split; [tauto |].
  exact (unconfirmed_plugin_never_deletes cautiousDay unconfirmedSession Hf Hall).
Defined.

Lemma stopped_plugin_never_deletes_witness :
  (checkInterval (settings (plugin stoppedSession)) = 0
   ∧ Forall (fun e => ∀ value, e ≠ CheckIntervalChanged value) quietDay)
  ∧ trashed (plugin (run quietDay stoppedSession))
    = trashed (plugin stoppedSession)
  ∧ vault (plugin (run quietDay stoppedSession)) = vault (plugin stoppedSession)
  ∧ checkInterval (settings (plugin (run quietDay stoppedSession))) = 0.
Proof.
  assert (Hc : checkInterval (settings (plugin stoppedSession)) = 0)
    by reflexivity.
  assert (Hall : Forall (fun e => ∀ value, e ≠ CheckIntervalChanged value) quietDay)
    by (repeat constructor; discriminate).
  split; [tauto |].
  exact (stopped_plugin_never_deletes quietDay stoppedSession Hc Hall).
Defined.

Lemma interval_edit_restarts_scheduler_witness :
  (parseInt "5" = Some 5 ∧ 0 ≤ 5 ≤ 1440 ∧ tracksTimer (plugin loaded))
  ∧ (let d' := handle (CheckIntervalChanged "5") loaded in
     settings (plugin d') = mkSettings "tmp" 60 5 true
     ∧ dataJson d' = Some (toObject (settings (plugin d')))
     ∧ activeTimers (plugin d') = [(2%nat, 5 * 60000)]
     ∧ intervalId (plugin d') = Some 2%nat).
Proof.
  assert (Hparse : parseInt "5" = Some 5) by reflexivity.
  assert (Hn : 0 ≤ 5 ≤ 1440) by (split; discriminate).
  assert (Ht : tracksTimer (plugin loaded)) by (vm_compute; eexists; reflexivity).
  split; [tauto |].
  exact (interval_edit_restarts_scheduler "5" 5 loaded Hparse Hn Ht).
Defined.

Lemma number_fields_accept_only_their_range_witness :
  (parseInt "90" = Some 90 ∧ 1 ≤ 90 ≤ 10080)
  ∧ ttlMinites (settings (plugin (handle (TtlChanged "90") loaded))) = 90
  ∧ handle (TtlChanged "0") loaded = loaded
  ∧ handle (CheckIntervalChanged "1441") loaded = loaded.
Proof.
  assert (Hparse : parseInt "90" = Some 90) by reflexivity.
  assert (Hn : 1 ≤ 90 ≤ 10080) by (split; discriminate).
  split; [tauto |].
  destruct (number_fields_accept_only_their_range "90" loaded) as (Hacc & _ & _).
  destruct (number_fields_accept_only_their_range "0" loaded) as (_ & Hlow & _).
  destruct (number_fields_accept_only_their_range "1441" loaded) as (_ & _ & Hhigh).
  split; [exact (proj1 (Hacc 90 Hparse Hn)) |].
  split.
  - apply Hlow. intros n [= <-]. left. reflexivity.
  - apply Hhigh. intros n [= <-]. right. reflexivity.
Defined.
